(** * Text-capture orchestration of the screen translator

    A shallow embedding of the capture layer of the repository:

    - [src/src/core/hook_client.py]: the [HookTextThread] methods
      [_seen_add], [_should_emit], [_emit_text], [_emit_text_with_source],
      [_parse_hook_line], the per-connection body of [_server_loop], the
      window-event callback [_win_event_proc], the architecture branch of
      [run], and the JavaScript agent functions [sendText],
      [sendTextInternal], [normalizePrefixBuf], [cleanDoubles] and [sendGl];
    - [src/hook_agent.py]: the rate-limited [_send_text];
    - [src/src/ui/main_window.py]: the session counter and the two callbacks
      [_on_hook_status] and [_on_hook_text_received].

    Conventions.  A Python [str] is the list of its code points and a
    JavaScript string the list of its UTF-16 code units, both as [list Z].
    Clock readings ([time.time()], [Date.now()]) are arguments of the
    functions that read the clock, in integral milliseconds.  A function
    that emits Qt signals or calls [send] returns the list of what it
    emitted, oldest first, next to the new state. *)

From Stdlib Require Import ZArith Lia Bool.
From stdpp Require Import base gmap sets list strings.

Open Scope Z_scope.

(** ** Strings *)

Module Ustr.

Definition is_cont (b : Z) : bool := (128 <=? b) && (b <=? 191).

Definition in_range (lo hi b : Z) : bool := (lo <=? b) && (b <=? hi).

(** Second byte of a three-byte sequence: no overlong form, no surrogate. *)
Definition ok3 (b0 b1 : Z) : bool :=
  if b0 =? 224 then in_range 160 191 b1
  else if b0 =? 237 then in_range 128 159 b1
  else is_cont b1.

(** Second byte of a four-byte sequence: no overlong form, at most U+10FFFF. *)
Definition ok4 (b0 b1 : Z) : bool :=
  if b0 =? 240 then in_range 144 191 b1
  else if b0 =? 244 then in_range 128 143 b1
  else is_cont b1.

(** [bytes.decode("utf-8", errors="ignore")]: well-formed sequences give
    their code point; a byte that does not start one is dropped and
    decoding resumes at the byte after it. *)
Fixpoint utf8_decode (bs : list Z) : list Z :=
  match bs with
  | [] => []
  | b0 :: r0 =>
    if in_range 0 127 b0 then b0 :: utf8_decode r0
    else if in_range 194 223 b0 then
      match r0 with
      | b1 :: r1 =>
        if is_cont b1
        then ((b0 - 192) * 64 + (b1 - 128)) :: utf8_decode r1
        else utf8_decode r0
      | [] => []
      end
    else if in_range 224 239 b0 then
      match r0 with
      | b1 :: b2 :: r2 =>
        if ok3 b0 b1 && is_cont b2
        then ((b0 - 224) * 4096 + (b1 - 128) * 64 + (b2 - 128)) :: utf8_decode r2
        else utf8_decode r0
      | _ => utf8_decode r0
      end
    else if in_range 240 244 b0 then
      match r0 with
      | b1 :: b2 :: b3 :: r3 =>
        if ok4 b0 b1 && is_cont b2 && is_cont b3
        then ((b0 - 240) * 262144 + (b1 - 128) * 4096
              + (b2 - 128) * 64 + (b3 - 128)) :: utf8_decode r3
        else utf8_decode r0
      | _ => utf8_decode r0
      end
    else utf8_decode r0
  end.

Definition bytes_of (s : string) : list Z :=
  map (fun a => Z.of_N (Ascii.N_of_ascii a)) (String.list_ascii_of_string s).

(** A string literal of the sources, as code points. *)
Definition lit (s : string) : list Z := utf8_decode (bytes_of s).

Definition eqb (s t : list Z) : bool := bool_decide (s = t).

Fixpoint startswith (s p : list Z) : bool :=
  match p, s with
  | [], _ => true
  | _ :: _, [] => false
  | a :: p', b :: s' => (a =? b) && startswith s' p'
  end.

Definition endswith (s p : list Z) : bool := startswith (rev s) (rev p).

(** [p in s] (Python), [s.indexOf(p) !== -1] (JavaScript). *)
Fixpoint contains (s p : list Z) : bool :=
  startswith s p ||
  match s with
  | [] => false
  | _ :: s' => contains s' p
  end.

(** [s.indexOf(p)], [None] standing for -1. *)
Fixpoint index_of (s p : list Z) : option nat :=
  if startswith s p then Some 0%nat
  else match s with
       | [] => None
       | _ :: s' => S <$> index_of s' p
       end.

(** [s.split(c, 1)] for a one-character separator that occurs in [s]:
    the text before the first [c] and the text after it. *)
Fixpoint split_once (c : Z) (s : list Z) : option (list Z * list Z) :=
  match s with
  | [] => None
  | a :: s' =>
    if a =? c then Some ([], s')
    else match split_once c s' with
         | Some (h, b) => Some (a :: h, b)
         | None => None
         end
  end.

Fixpoint lstrip_by (sp : Z -> bool) (s : list Z) : list Z :=
  match s with
  | [] => []
  | a :: s' => if sp a then lstrip_by sp s' else s
  end.

Definition strip_by (sp : Z -> bool) (s : list Z) : list Z :=
  rev (lstrip_by sp (rev (lstrip_by sp s))).

End Ustr.

Notation "'u' s" := (Ustr.lit s%string) (at level 1, s at level 0, only parsing).

(** ** Python built-ins used by the thread *)

Module Py.

(** [str.isspace] on one code point. *)
Definition isspace (c : Z) : bool :=
  Ustr.in_range 9 13 c || Ustr.in_range 28 32 c || (c =? 133) || (c =? 160)
  || (c =? 5760) || Ustr.in_range 8192 8202 c || (c =? 8232) || (c =? 8233)
  || (c =? 8239) || (c =? 8287) || (c =? 12288).

Definition strip (s : list Z) : list Z := Ustr.strip_by isspace s.

(** [str.lower], as far as the comparisons with ["pid="] and ["pid:"]
    of [_parse_hook_line] can observe it: the ASCII capitals, and U+0130,
    whose lower case is [i] followed by U+0307. *)
Definition lower1 (c : Z) : list Z :=
  if Ustr.in_range 65 90 c then [c + 32]
  else if c =? 304 then [105; 775]
  else [c].

Definition lower (s : list Z) : list Z := s ≫= lower1.

(** [s[:n]] for [n >= 0]. *)
Definition slice_to (n : Z) (s : list Z) : list Z := take (Z.to_nat n) s.

Definition len (s : list Z) : Z := Z.of_nat (length s).

Fixpoint digits (fuel : nat) (n : Z) (acc : list Z) : list Z :=
  match fuel with
  | O => acc
  | S f =>
    let acc' := (48 + n mod 10) :: acc in
    if n <? 10 then acc' else digits f (n / 10) acc'
  end.

(** [str(n)] on an [int]. *)
Definition str_of_int (n : Z) : list Z :=
  if n <? 0 then 45 :: digits (S (Z.to_nat (Z.log2 (- n)))) (- n) []
  else digits (S (Z.to_nat (Z.log2 n))) n [].

End Py.

(** ** [HookTextThread]: deduplication and emission *)

Module HookClient.

(** The two Qt signals of the thread. *)
Inductive signal :=
| text_received (s : list Z)
| status (s : list Z).

(** [collections.deque(maxlen=n)] of hashes, leftmost element first. *)
Record deque := Deque { items : list Z; maxlen : nat }.

(** [d.append(x)]: a full bounded deque drops its leftmost element. *)
Definition append (d : deque) (x : Z) : deque :=
  if (maxlen d =? 0)%nat then d
  else if (length (items d) <? maxlen d)%nat
       then Deque (items d ++ [x]) (maxlen d)
       else Deque (drop 1 (items d) ++ [x]) (maxlen d).

(** [d.popleft()]; [None] is the [IndexError] of an empty deque. *)
Definition popleft (d : deque) : option (Z * deque) :=
  match items d with
  | [] => None
  | x :: r => Some (x, Deque r (maxlen d))
  end.

Record thread := Thread {
  _pid : Z;
  _min_chars : Z;
  _max_chars : Z;
  _debounce_ms : Z;
  _listen_port : option Z;
  _enable_win_event : bool;
  _enable_socket : bool;
  _enable_uia : bool;
  _enable_frida : bool;
  _prefer_frida_only : bool;
  _last_emit_ts : Z;
  _last_text : list Z;
  _seen : deque;
  _seen_set : gset Z
}.

(** [HookTextThread.__init__]; the keyword defaults are [min_chars=1],
    [max_chars=200], [debounce_ms=120], [listen_port=None]. *)
Definition __init__ (pid min_chars max_chars debounce_ms : Z)
    (listen_port : option Z)
    (enable_win_event enable_socket enable_uia enable_frida
     prefer_frida_only : bool) : thread :=
  let mn := Z.max 1 min_chars in
  {| _pid := pid;
     _min_chars := mn;
     _max_chars := Z.max mn max_chars;
     _debounce_ms := Z.max 30 debounce_ms;
     _listen_port := listen_port;
     _enable_win_event := enable_win_event;
     _enable_socket := enable_socket;
     _enable_uia := enable_uia;
     _enable_frida := enable_frida;
     _prefer_frida_only := prefer_frida_only;
     _last_emit_ts := 0;
     _last_text := [];
     _seen := Deque [] 300;
     _seen_set := ∅ |}.

(** The constructor called with its defaults. *)
Definition default_thread (pid : Z) : thread :=
  __init__ pid 1 200 120 None true true true true false.

Definition with_seen (st : thread) (d : deque) (s : gset Z) : thread :=
  {| _pid := _pid st; _min_chars := _min_chars st;
     _max_chars := _max_chars st; _debounce_ms := _debounce_ms st;
     _listen_port := _listen_port st;
     _enable_win_event := _enable_win_event st;
     _enable_socket := _enable_socket st; _enable_uia := _enable_uia st;
     _enable_frida := _enable_frida st;
     _prefer_frida_only := _prefer_frida_only st;
     _last_emit_ts := _last_emit_ts st; _last_text := _last_text st;
     _seen := d; _seen_set := s |}.

Definition with_last (st : thread) (text : list Z) (now : Z) : thread :=
  {| _pid := _pid st; _min_chars := _min_chars st;
     _max_chars := _max_chars st; _debounce_ms := _debounce_ms st;
     _listen_port := _listen_port st;
     _enable_win_event := _enable_win_event st;
     _enable_socket := _enable_socket st; _enable_uia := _enable_uia st;
     _enable_frida := _enable_frida st;
     _prefer_frida_only := _prefer_frida_only st;
     _last_emit_ts := now; _last_text := text;
     _seen := _seen st; _seen_set := _seen_set st |}.

Definition with_channels (st : thread) (we uia frida : bool) : thread :=
  {| _pid := _pid st; _min_chars := _min_chars st;
     _max_chars := _max_chars st; _debounce_ms := _debounce_ms st;
     _listen_port := _listen_port st;
     _enable_win_event := we;
     _enable_socket := _enable_socket st; _enable_uia := uia;
     _enable_frida := frida;
     _prefer_frida_only := _prefer_frida_only st;
     _last_emit_ts := _last_emit_ts st; _last_text := _last_text st;
     _seen := _seen st; _seen_set := _seen_set st |}.

(** [_seen_add]: [popleft] cannot raise when the length test passed, and
    its [except] branch leaves both containers as they are. *)
Definition _seen_add (st : thread) (h : Z) : thread * bool :=
  if bool_decide (h ∈ _seen_set st) then (st, false)
  else
    let '(d, s) :=
      if (maxlen (_seen st) <=? length (items (_seen st)))%nat
      then match popleft (_seen st) with
           | Some (old, d') => (d', _seen_set st ∖ {[old]})
           | None => (_seen st, _seen_set st)
           end
      else (_seen st, _seen_set st) in
    (with_seen st (append d h) (s ∪ {[h]}), true).

Section Hashed.

(** The built-in [hash] on strings. *)
Variable hash : list Z -> Z.

(** [_should_emit], with the reading [now] of [time.time()]. *)
Definition _should_emit (st : thread) (now : Z) (text : list Z)
  : thread * bool :=
  if Ustr.eqb text (_last_text st)
     && (now - _last_emit_ts st <? _debounce_ms st)
  then (st, false)
  else _seen_add (with_last st text now) (hash text).

(** [_emit_text]. *)
Definition _emit_text (st : thread) (now : Z) (text : list Z)
  : thread * list signal :=
  let payload := Py.strip text in
  if Ustr.eqb payload [] then (st, [])
  else
    let payload :=
      if _max_chars st <? Py.len payload
      then Py.slice_to (_max_chars st) payload
      else payload in
    let '(st', ok) := _should_emit st now payload in
    if ok then (st', [text_received payload]) else (st', []).

(** [_emit_text_with_source]. *)
Definition _emit_text_with_source (st : thread) (now : Z)
    (text source : list Z) : thread * list signal :=
  let payload := Py.strip text in
  if Ustr.eqb payload [] then (st, [])
  else if _prefer_frida_only st
          && (Ustr.eqb source (u"uia") || Ustr.eqb source (u"win_event"))
  then (st, [])
  else _emit_text st now payload.

(** A sequence of [_should_emit] calls, each with its clock reading. *)
Fixpoint should_emit_all (st : thread) (calls : list (Z * list Z))
  : thread :=
  match calls with
  | [] => st
  | (now, text) :: r => should_emit_all (fst (_should_emit st now text)) r
  end.

(** A sequence of [_emit_text] calls and all it emitted. *)
Fixpoint emit_text_all (st : thread) (calls : list (Z * list Z))
  : thread * list signal :=
  match calls with
  | [] => (st, [])
  | (now, text) :: r =>
    let '(st1, out1) := _emit_text st now text in
    let '(st2, out2) := emit_text_all st1 r in
    (st2, out1 ++ out2)
  end.

End Hashed.

(** A sequence of [_seen_add] calls. *)
Definition seen_add_all (st : thread) (hs : list Z) : thread :=
  foldl (fun s h => fst (_seen_add s h)) st hs.

(** *** The socket ingest channel *)

(** [s.split(c, 1)[-1]]: what follows the first [c], or all of [s]. *)
Definition after_first (c : Z) (s : list Z) : list Z :=
  match Ustr.split_once c s with
  | Some (_, b) => b
  | None => s
  end.

(** Splits a receive buffer at every newline byte: the complete lines,
    and the unterminated rest that stays in the buffer. *)
Fixpoint split_lines (buf : list Z) : list (list Z) * list Z :=
  match buf with
  | [] => ([], [])
  | b :: r =>
    let '(ls, rest) := split_lines r in
    if b =? 10 then ([] :: ls, rest)
    else match ls with
         | [] => ([], b :: rest)
         | l :: ls' => ((b :: l) :: ls', rest)
         end
  end.

Section Wire.

Variable hash : list Z -> Z.

(** The JSON reader, as [_parse_hook_line] uses it: [json_loads] is
    [json.loads] on a text that starts with an opening and ends with a
    closing brace ([None] when it raises), [json_str d k] is
    [str(d.get(k) or "")], and [json_pid d] is [d.get("pid")] turned
    into an [int] where that succeeds. *)
Variable jdict : Type.
Variable json_loads : list Z -> option jdict.
Variable json_str : jdict -> list Z -> list Z.
Variable json_pid : jdict -> option Z.

(** The built-in [int] on strings; [None] is its [ValueError]. *)
Variable int_of : list Z -> option Z.

Definition parse_json (payload : list Z)
  : option (option Z * list Z * list Z) :=
  if Ustr.startswith payload (u"{") && Ustr.endswith payload (u"}")
  then match json_loads payload with
       | Some data =>
         Some (json_pid data,
               Py.strip (json_str data (u"text")),
               Py.strip (json_str data (u"status")))
       | None => None
       end
  else None.

(** The [pid=] and [pid:] branches, [sep] being [=] or [:]. *)
Definition parse_pid_form (sep : Z) (payload : list Z)
  : option (option Z * list Z * list Z) :=
  if Ustr.startswith (Py.lower payload) (u"pid" ++ [sep])
     && Ustr.contains payload (u"|")
  then match Ustr.split_once 124 payload with
       | Some (head, body) =>
         Some (int_of (Py.strip (after_first sep head)), Py.strip body, [])
       | None => None
       end
  else None.

(** [_parse_hook_line]: the triple [(pid, text, status)]. *)
Definition _parse_hook_line (line : list Z) : option Z * list Z * list Z :=
  let payload := Py.strip line in
  if Ustr.eqb payload [] then (None, [], [])
  else match parse_json payload with
       | Some r => r
       | None =>
         match parse_pid_form 61 payload with
         | Some r => r
         | None =>
           match parse_pid_form 58 payload with
           | Some r => r
           | None => (None, payload, [])
           end
         end
       end.

(** One turn of the inner [while b"\n" in buf] loop of [_server_loop],
    on the bytes of one line. *)
Definition handle_line (st : thread) (now : Z) (line : list Z)
  : thread * list signal :=
  let s := Py.strip (Ustr.utf8_decode line) in
  if Ustr.eqb s [] then (st, [])
  else
    let '(pid, text, stat) := _parse_hook_line s in
    let foreign :=
      match pid with
      | Some p => negb (p =? _pid st)
      | None => false
      end in
    if foreign then (st, [])
    else
      let out1 := if Ustr.eqb stat [] then [] else [status stat] in
      let '(st', out2) :=
        _emit_text_with_source hash st now text (u"socket") in
      (st', out1 ++ out2).

Fixpoint handle_lines (st : thread) (clock : nat -> Z) (i : nat)
    (lines : list (list Z)) : thread * list signal :=
  match lines with
  | [] => (st, [])
  | l :: r =>
    let '(st1, out1) := handle_line st (clock i) l in
    let '(st2, out2) := handle_lines st1 clock (S i) r in
    (st2, out1 ++ out2)
  end.

(** What [_server_loop] does with one [conn.recv] result [data]: [buf]
    is the connection's buffer, [clock i] the clock reading while the
    [i]-th complete line is handled. *)
Definition on_recv (st : thread) (clock : nat -> Z) (buf data : list Z)
  : list Z * thread * list signal :=
  let '(lines, rest) := split_lines (buf ++ data) in
  let '(st', out) := handle_lines st clock 0 lines in
  (rest, st', out).

End Wire.

Arguments parse_json {jdict}.
Arguments _parse_hook_line {jdict}.
Arguments handle_line hash {jdict}.
Arguments handle_lines hash {jdict}.
Arguments on_recv hash {jdict}.

(** *** The window-event channel *)

Definition EVENT_SYSTEM_FOREGROUND : Z := 3.
Definition EVENT_OBJECT_FOCUS : Z := 32773.
Definition EVENT_OBJECT_NAMECHANGE : Z := 32780.
Definition EVENT_OBJECT_VALUECHANGE : Z := 32782.
Definition OBJID_CLIENT : Z := -4.

(** One invocation of the callback: its arguments and what the operating
    system answers to the calls made on the window.  [None] is a call
    that raised. *)
Record win_event := WinEvent {
  ev_interrupted : bool;
  ev_event : Z;
  ev_hwnd : Z;
  ev_id_object : Z;
  ev_is_window : option bool;
  ev_is_visible : option bool;
  ev_owner_pid : option Z;
  ev_control_text : list Z
}.

(** [_read_text_via_sendmessage]: the control reports the length of its
    text, and [WM_GETTEXT] copies at most the requested length. *)
Definition _read_text_via_sendmessage (st : thread) (ctl : list Z)
  : list Z :=
  let length := Py.len ctl in
  if length <=? 0 then []
  else Py.slice_to (Z.min length (_max_chars st)) ctl.

Section WinEventProc.

Variable hash : list Z -> Z.

(** [_win_event_proc]; [now1] is the clock reading of its own
    [_should_emit] call and [now2] the one of the call inside
    [_emit_text]. *)
Definition _win_event_proc (st : thread) (now1 now2 : Z) (ev : win_event)
  : thread * list signal :=
  if ev_interrupted ev then (st, [])
  else if ev_hwnd ev =? 0 then (st, [])
  else if negb (ev_id_object ev =? OBJID_CLIENT) then (st, [])
  else if negb (default false (ev_is_window ev)) then (st, [])
  else if negb (default true (ev_is_visible ev)) then (st, [])
  else
    match ev_owner_pid ev with
    | None => (st, [])
    | Some owner =>
      if negb (owner =? _pid st) then (st, [])
      else if ev_event ev =? EVENT_SYSTEM_FOREGROUND then (st, [])
      else
        let text :=
          if (ev_event ev =? EVENT_OBJECT_NAMECHANGE)
             || (ev_event ev =? EVENT_OBJECT_VALUECHANGE)
             || (ev_event ev =? EVENT_OBJECT_FOCUS)
          then _read_text_via_sendmessage st (ev_control_text ev)
          else [] in
        let text := Py.strip text in
        if Ustr.eqb text [] then (st, [])
        else if Py.len text <? _min_chars st then (st, [])
        else
          let text :=
            if _max_chars st <? Py.len text
            then Py.slice_to (_max_chars st) text
            else text in
          let '(st1, ok) := _should_emit hash st now1 text in
          if negb ok then (st1, [])
          else _emit_text_with_source hash st1 now2 text (u"win_event")
    end.

End WinEventProc.

(** *** The architecture branch of [run] *)

Inductive arch := x86 | x64 | unknown.

Definition arch_name (a : arch) : list Z :=
  match a with
  | x86 => u"x86"
  | x64 => u"x64"
  | unknown => u"unknown"
  end.

Definition arch_eqb (a b : arch) : bool :=
  match a, b with
  | x86, x86 | x64, x64 | unknown, unknown => true
  | _, _ => false
  end.

(** A file-system path as the list of its components. *)
Definition path := list (list Z).

(** [os.path.abspath] on an absolute path: [..] cancels the component
    before it. *)
Definition abspath (p : path) : path :=
  foldl (fun acc c =>
           if Ustr.eqb c (u"..") then take (length acc - 1) acc
           else acc ++ [c]) [] p.

Fixpoint render_path (p : path) : list Z :=
  match p with
  | [] => []
  | [c] => c
  | c :: r => c ++ [92] ++ render_path r
  end.

(** What the process and the operating system answer during [run]. *)
Record host := Host {
  h_detect_process_arch : arch;
  h_detect_process_arch_by_pe : arch;
  h_current_py_arch : arch;
  h_argv : list (list Z);
  h_frozen : bool;
  h_executable : list Z;
  h_cwd : path;
  h_module_dir : path;
  h_exists : path -> bool;
  h_popen_error : option (list Z);
  h_import_error : option (list Z);
  h_os_nt : bool
}.

(** The candidate list of [_find_32bit_agent], in its order. *)
Definition agent_candidates (hst : host) : list path :=
  let exe := u"HookAgent.exe" in
  let dir := u"HookAgent" in
  let x86dir := u"ScreenTranslator-x86" in
  [ abspath (h_cwd hst ++ [u"dist"; x86dir; dir; exe]);
    abspath (h_cwd hst ++ [x86dir; dir; exe]);
    abspath (h_cwd hst ++ [x86dir; exe]);
    abspath (h_cwd hst ++ [u".."; x86dir; dir; exe]);
    abspath (h_cwd hst ++ [u"HookAgent-x86"; exe]);
    abspath (h_cwd hst ++ [dir; exe]);
    abspath (h_module_dir hst ++ [u".."; u".."; u"dist"; x86dir; dir; exe]) ].

(** [_find_32bit_agent]: the first candidate that exists. *)
Definition _find_32bit_agent (hst : host) : option path :=
  List.find (h_exists hst) (agent_candidates hst).

(** The helper started by [subprocess.Popen]: its path and the values
    passed after [--pid] and [--port]. *)
Record agent_process := AgentProcess {
  agent_path : path;
  agent_pid_arg : Z;
  agent_port_arg : option Z
}.

(** How far [run] gets: it returned, it sleeps until it is interrupted
    with at most the socket listener running, or it goes on to install
    the window-event hooks. *)
Inductive run_phase := Returned | Idle | InstallHooks.

Record run_result := RunResult {
  r_thread : thread;
  r_emitted : list signal;
  r_agent : option agent_process;
  r_server_thread : bool;
  r_uia_thread : bool;
  r_frida_thread : bool;
  r_phase : run_phase
}.

Definition is_agent (hst : host) : bool :=
  bool_decide (u"--pid" ∈ h_argv hst)
  || (h_frozen hst && Ustr.contains (h_executable hst) (u"HookAgent")).

(** The architecture of the target: [_detect_process_arch], and
    [_detect_process_arch_by_pe] where the former does not know. *)
Definition probed_arch (hst : host) : arch :=
  match h_detect_process_arch hst with
  | unknown => h_detect_process_arch_by_pe hst
  | a => a
  end.

(** The [try] block of [run] that probes the two architectures: the new
    thread state, the statuses emitted, the helper started, and whether
    [run] returns from inside the block. *)
Definition probe_block (hst : host) (st : thread)
  : thread * list signal * option agent_process * bool :=
  let target_arch := probed_arch hst in
  let py_arch := h_current_py_arch hst in
  let msg := u"Hook架构检测: 目标进程 " ++ arch_name target_arch
             ++ u" / Python " ++ arch_name py_arch in
  if negb (arch_eqb target_arch unknown) && negb (arch_eqb py_arch unknown)
  then
    if negb (arch_eqb target_arch py_arch) then
      let warn := u"Hook架构不匹配，32位游戏请使用32位Python/Frida运行" in
      let hint := u"Hook需要切换: " ++ arch_name target_arch in
      let st1 := with_channels st false false false in
      let out := [status msg; status warn; status hint] in
      if is_agent hst then
        (st1,
         out ++ [status (u"HookAgent (" ++ arch_name py_arch
                         ++ u") 无法注入目标 (" ++ arch_name target_arch
                         ++ u") - 架构不匹配")],
         None, true)
      else
        let '(out2, agent) :=
          match _find_32bit_agent hst with
          | Some agent_path =>
            let try_msg :=
              status (u"Hook 尝试启动 32 位辅助进程: "
                      ++ render_path agent_path) in
            match h_popen_error hst with
            | None =>
              ([try_msg; status (u"Hook 32 位辅助进程已启动")],
               Some (AgentProcess agent_path (_pid st) (_listen_port st)))
            | Some e =>
              ([try_msg; status (u"Hook 启动 32 位辅助进程失败: " ++ e)],
               None)
            end
          | None =>
            ([status (u"Hook 未找到 32 位 HookAgent，无法注入 32 位进程")],
             None)
          end in
        (st1, out ++ out2, agent, negb (_enable_socket st1))
    else (st, [status msg], None, false)
  else (st, [status msg], None, false).

(** [run], up to the point where it returns, starts sleeping, or starts
    installing the window-event hooks. *)
Definition run (hst : host) (st : thread) : run_result :=
  if _pid st <=? 0
  then RunResult st [status (u"Hook钩子：PID 无效")] None false false false
                 Returned
  else
    let '(st1, out1, agent, returned) := probe_block hst st in
    if returned then RunResult st1 out1 agent false false false Returned
    else
      let server :=
        _enable_socket st1
        && match _listen_port st1 with
           | Some p => negb (p =? 0)
           | None => false
           end in
      let uia := _enable_uia st1 in
      let frida := _enable_frida st1 in
      let out2 :=
        if frida then [status (u"Hook Frida 线程已启动")] else [] in
      let finish out3 phase :=
        RunResult st1 (out1 ++ out2 ++ out3) agent server uia frida phase in
      match h_import_error hst with
      | Some e =>
        if server
        then finish [status (u"Hook钩子仅启动外部端口: " ++ e)] Idle
        else finish [status (u"Hook钩子初始化失败: " ++ e)] Returned
      | None =>
        if negb (h_os_nt hst) then
          if server
          then finish [status (u"Hook钩子仅启动外部端口: 非 Windows")] Idle
          else finish [status (u"Hook钩子仅支持 Windows")] Returned
        else if negb (_enable_win_event st1)
        then finish [status (u"Hook钩子仅启动外部端口")] Idle
        else finish [] InstallHooks
      end.

(** *** Statements about the thread *)

(** The ring buffer and its companion set agree: the buffer holds no hash
    twice, the set holds exactly the hashes of the buffer, and the buffer
    respects its bound of 300. *)
Definition window_ok (st : thread) : Prop :=
  NoDup (items (_seen st))
  ∧ (∀ h, h ∈ _seen_set st ↔ h ∈ items (_seen st))
  ∧ (length (items (_seen st)) ≤ maxlen (_seen st))%nat
  ∧ maxlen (_seen st) = 300%nat.

(** Two threads with the same ring buffer and the same set. *)
Definition same_window (a b : thread) : Prop :=
  _seen a = _seen b ∧ _seen_set a = _seen_set b.

(** Some status among [out] contains [needle]. *)
Definition mentions (needle : list Z) (out : list signal) : bool :=
  existsb (λ e, match e with
                | status s => Ustr.contains s needle
                | text_received _ => false
                end) out.

(** The status [run] emits when [_find_32bit_agent] returns [None]. *)
Definition NOT_FOUND : list Z :=
  u"Hook 未找到 32 位 HookAgent，无法注入 32 位进程".

(** The three statuses [run] emits for a 32-bit target under a 64-bit
    interpreter before it looks for the helper. *)
Definition mismatch_statuses : list signal :=
  [status (u"Hook架构检测: 目标进程 " ++ arch_name x86
           ++ u" / Python " ++ arch_name x64);
   status (u"Hook架构不匹配，32位游戏请使用32位Python/Frida运行");
   status (u"Hook需要切换: " ++ arch_name x86)].

(** *** Concrete inputs for the closed examples *)

(** A hash function for examples: the first code point. *)
Definition hash_head (s : list Z) : Z := default 0 (head s).

(** [n] calls with pairwise different one-character texts, one
    millisecond apart. *)
Definition distinct_calls (n : nat) : list (Z * list Z) :=
  (λ i, (i, [i])) <$> seqZ 1 (Z.of_nat n).

(** A focus event on a visible control of process [pid] holding [text]. *)
Definition focus_event (pid : Z) (text : list Z) : win_event :=
  WinEvent false EVENT_OBJECT_FOCUS 1 OBJID_CLIENT (Some true) (Some true)
           (Some pid) text.

Fixpoint digits_value (acc : Z) (s : list Z) : option Z :=
  match s with
  | [] => Some acc
  | c :: r =>
    if Ustr.in_range 48 57 c then digits_value (acc * 10 + (c - 48)) r
    else None
  end.

(** [int] on the ASCII decimal literals, for examples: blanks around an
    optional sign and digits; anything else is a [ValueError]. *)
Definition int_ascii (s : list Z) : option Z :=
  match Py.strip s with
  | [] => None
  | 43 :: (_ :: _) as r => digits_value 0 r
  | 45 :: (_ :: _) as r => Z.opp <$> digits_value 0 r
  | [43] | [45] => None
  | r => digits_value 0 r
  end.

(** A JSON reader for examples whose lines are no JSON: it raises on
    every text. *)
Definition json_raises (s : list Z) : option unit := None.
Definition json_no_str (d : unit) (k : list Z) : list Z := [].
Definition json_no_pid (d : unit) : option Z := None.

(** A file system without any helper binary. *)
Definition no_file (p : path) : bool := false.

(** The main application under a 64-bit interpreter, its target a 32-bit
    process, and the thread [_start_hook_service] creates for it. *)
Definition main_host : host :=
  Host x86 unknown x64 [u"main.py"] false (u"python.exe")
       [u"C:"; u"app"] [u"C:"; u"app"; u"src"; u"core"]
       no_file None None true.

Definition main_thread : thread :=
  __init__ 4242 1 200 120 (Some 37123) false true false true true.

(** [hook_agent.py] started with [--pid 4242] under a 64-bit interpreter,
    and the thread its [main] creates. *)
Definition helper_host : host :=
  Host x86 unknown x64 [u"hook_agent.py"; u"--pid"; u"4242"] false
       (u"python.exe") [u"C:"; u"app"] [u"C:"; u"app"; u"src"; u"core"]
       no_file None None true.

Definition helper_thread : thread :=
  __init__ 4242 1 200 120 (Some 37123) true false true true false.

End HookClient.

(** ** The helper process: [hook_agent.py] *)

Module HookAgent.

(** The module globals [_msg_count] and [_msg_timer]. *)
Record limiter := Limiter { _msg_count : Z; _msg_timer : Z }.

Definition initial : limiter := Limiter 0 0.

(** [_send_text] at clock reading [now]: the new globals, and the text
    handed to [_send_payload] when the call gets that far. *)
Definition _send_text (st : limiter) (now : Z) (text : list Z)
  : limiter * option (list Z) :=
  let payload := Py.strip text in
  if Ustr.eqb payload [] then (st, None)
  else
    let st1 := if 1000 <? now - _msg_timer st then Limiter 0 now else st in
    if 20 <=? _msg_count st1 then (st1, None)
    else (Limiter (_msg_count st1 + 1) (_msg_timer st1), Some payload).

(** A run of calls; the texts handed to [_send_payload], in order. *)
Fixpoint send_all (st : limiter) (calls : list (Z * list Z))
  : limiter * list (list Z) :=
  match calls with
  | [] => (st, [])
  | (now, text) :: r =>
    let '(st1, sent) := _send_text st now text in
    let '(st2, out) := send_all st1 r in
    (st2, match sent with Some p => p :: out | None => out end)
  end.

(** [n] calls with the same text, one millisecond apart from [from] on. *)
Definition burst (n : nat) (from : Z) (text : list Z) : list (Z * list Z) :=
  (λ i, (from + i, text)) <$> seqZ 0 (Z.of_nat n).

(** Fifty calls within 200 ms, on both sides of the moment 6000 at which
    a window opened at 5000 runs out. *)
Definition straddling_burst : list (Z * list Z) :=
  replicate 25 (5900, u"a") ++ replicate 25 (6100, u"b").

End HookAgent.

(** ** The consumer: hook sessions of [MainWindow] *)

Module MainWindow.

(** What a callback does to the rest of the application. *)
Inductive effect :=
| log_message (s : list Z)
| hook_log (s : list Z)
| append_intercepted_text (s : list Z)
| launch_other_arch (a : list Z)
| message_box_warning (s : list Z)
| clear_intercepted_texts
| status_label (s : list Z)
| start_thread (session_id pid : Z)
| terminate_hook_agent_process
| interrupt_thread
| overlay_show_text_mode
| overlay_original_text (s : list Z)
| overlay_language_label
| overlay_translation_result (s : list Z)
| start_async_translation (s : list Z).

(** The attributes of the window that the hook code reads and writes.
    [realtime_checked], [overlay_available] and [translator_loaded] are
    the answers of the check box, of [_ensure_overlay] and of
    [self.translator]; [effects] collects what was done, oldest first. *)
Record window := Window {
  _hook_session_id : Z;
  _hook_running : bool;
  _hook_learned : bool;
  _hook_arch_switch_prompted : bool;
  _last_hook_text : list Z;
  _hook_pending_prefix : list Z;
  _hook_pending_prefix_ts : Z;
  realtime_checked : bool;
  overlay_available : bool;
  translator_loaded : bool;
  effects : list effect
}.

Definition do (w : window) (es : list effect) : window :=
  Window (_hook_session_id w) (_hook_running w) (_hook_learned w)
         (_hook_arch_switch_prompted w) (_last_hook_text w)
         (_hook_pending_prefix w) (_hook_pending_prefix_ts w)
         (realtime_checked w) (overlay_available w) (translator_loaded w)
         (effects w ++ es).

Definition set_learned (w : window) (b : bool) : window :=
  Window (_hook_session_id w) (_hook_running w) b
         (_hook_arch_switch_prompted w) (_last_hook_text w)
         (_hook_pending_prefix w) (_hook_pending_prefix_ts w)
         (realtime_checked w) (overlay_available w) (translator_loaded w)
         (effects w).

Definition set_prompted (w : window) : window :=
  Window (_hook_session_id w) (_hook_running w) (_hook_learned w)
         true (_last_hook_text w)
         (_hook_pending_prefix w) (_hook_pending_prefix_ts w)
         (realtime_checked w) (overlay_available w) (translator_loaded w)
         (effects w).

Definition set_pending (w : window) (p : list Z) (ts : Z) : window :=
  Window (_hook_session_id w) (_hook_running w) (_hook_learned w)
         (_hook_arch_switch_prompted w) (_last_hook_text w)
         p ts
         (realtime_checked w) (overlay_available w) (translator_loaded w)
         (effects w).

Definition set_last_text (w : window) (t : list Z) : window :=
  Window (_hook_session_id w) (_hook_running w) (_hook_learned w)
         (_hook_arch_switch_prompted w) t
         (_hook_pending_prefix w) (_hook_pending_prefix_ts w)
         (realtime_checked w) (overlay_available w) (translator_loaded w)
         (effects w).

(** [_start_hook_service] from the point where the target process was
    resolved to [target_pid]: without a process it warns and returns;
    otherwise the counter is incremented and its new value tags the
    callbacks of the thread started here. *)
Definition _start_hook_service (w : window) (target_name : list Z)
    (target_pid : Z) : window * option Z :=
  if target_pid <=? 0
  then (do w [message_box_warning
                (u"请先填写目标进程名（例如 game.exe）")], None)
  else
    let sid := _hook_session_id w + 1 in
    let started :=
      if Ustr.eqb target_name []
      then u"Hook钩子启动: PID " ++ Py.str_of_int target_pid
      else u"Hook钩子启动: " ++ target_name ++ u"  (PID "
           ++ Py.str_of_int target_pid ++ u")" in
    (Window sid true false (_hook_arch_switch_prompted w) [] [] 0
            (realtime_checked w) (overlay_available w)
            (translator_loaded w)
            (effects w ++ [clear_intercepted_texts;
                           status_label (u"翻译服务: Hook模式钩子抓取中…");
                           log_message started;
                           start_thread sid target_pid]),
     Some sid).

(** [_stop_hook_service]. *)
Definition _stop_hook_service (w : window) : window :=
  Window (_hook_session_id w + 1) false false
         (_hook_arch_switch_prompted w) (_last_hook_text w)
         (_hook_pending_prefix w) (_hook_pending_prefix_ts w)
         (realtime_checked w) (overlay_available w) (translator_loaded w)
         (effects w ++ [terminate_hook_agent_process; interrupt_thread;
                        status_label (u"翻译服务: 未启用")]).

(** [s.split(p, 1)[-1]] for a separator [p] of any length. *)
Fixpoint after_first_sub (p s : list Z) : option (list Z) :=
  if Ustr.startswith s p then Some (drop (length p) s)
  else match s with
       | [] => None
       | _ :: s' => after_first_sub p s'
       end.

(** [_maybe_launch_other_arch]. *)
Definition _maybe_launch_other_arch (w : window) (s : list Z) : window :=
  if _hook_arch_switch_prompted w then w
  else
    let target_arch :=
      match after_first_sub (u"Hook需要切换:") s with
      | Some rest => Py.strip rest
      | None => []
      end in
    let target_arch :=
      if Ustr.eqb target_arch [] then
        if Ustr.contains s (u"目标进程 x86") then u"x86"
        else if Ustr.contains s (u"目标进程 x64") then u"x64"
        else []
      else target_arch in
    if Ustr.eqb target_arch (u"x86") || Ustr.eqb target_arch (u"x64")
    then do (set_prompted w) [launch_other_arch target_arch]
    else w.

Definition LEARNED_MARKS : list (list Z) :=
  [u"已学习读取规则"; u"Hook钩子已就绪"; u"Hook外部端口监听";
   u"Hook Frida 已启动"; u"Hook UIA 轮询已启动"].

Definition UNLEARNED_MARKS : list (list Z) :=
  [u"规则失效"; u"学习读取规则失败"].

(** [_on_hook_status], the slot connected with the tag [session_id]. *)
Definition _on_hook_status (w : window) (session_id : Z) (s : list Z)
  : window :=
  if negb (session_id =? _hook_session_id w) then w
  else if Ustr.eqb s [] then w
  else
    let w1 :=
      if Ustr.contains s (u"Hook架构不匹配")
         || Ustr.contains s (u"Hook需要切换:")
      then _maybe_launch_other_arch w s
      else w in
    let w2 :=
      if existsb (Ustr.contains s) LEARNED_MARKS then set_learned w1 true
      else if existsb (Ustr.contains s) UNLEARNED_MARKS
           then set_learned w1 false
           else w1 in
    let w3 :=
      if Ustr.startswith s (u"Hook 日志未找到:") then w2
      else do w2 [log_message s] in
    do w3 [hook_log (u"STATUS: " ++ s)].

Definition is_ascii_alpha (c : Z) : bool :=
  Ustr.in_range 65 90 c || Ustr.in_range 97 122 c.

Definition is_ascii_lower (c : Z) : bool := Ustr.in_range 97 122 c.

(** [_on_hook_text_received], the slot connected with the tag
    [session_id]; [now] is the reading of [time.time()]. *)
Definition _on_hook_text_received (w : window) (session_id now : Z)
    (text : list Z) : window :=
  if negb (session_id =? _hook_session_id w) then w
  else
    let payload := Py.strip text in
    match payload with
    | [] => w
    | c0 :: rest =>
      if Ustr.eqb rest [] && is_ascii_alpha c0
      then set_pending w payload now
      else
        let pfx := _hook_pending_prefix w in
        let ts := _hook_pending_prefix_ts w in
        let '(w1, payload) :=
          match pfx with
          | [p] =>
            if is_ascii_alpha p then
              let joined :=
                if (now - ts <=? 1200) && is_ascii_lower c0
                   && negb (Ustr.startswith payload pfx)
                   && negb (c0 =? 32)
                then pfx ++ payload
                else payload in
              (set_pending w [] 0, joined)
            else (w, payload)
          | _ => (w, payload)
          end in
        if Ustr.eqb payload (_last_hook_text w1) then w1
        else
          let w2 :=
            do (set_last_text w1 payload)
               [hook_log (u"TEXT: " ++ Py.slice_to 400 payload);
                append_intercepted_text payload] in
          if Ustr.startswith payload (u"[HOOK_READY]") then w2
          else if negb (realtime_checked w2) then w2
          else if negb (_hook_learned w2) then w2
          else if negb (overlay_available w2) then w2
          else
            let w3 :=
              do w2 [overlay_show_text_mode; overlay_original_text payload;
                     overlay_language_label] in
            if negb (translator_loaded w3)
            then do w3 [overlay_translation_result
                          (u"模型尚未加载完成，请稍候…")]
            else do w3 [overlay_translation_result (u"正在翻译…");
                        start_async_translation payload]
    end.

(** What happens to the window between two moments: sessions are
    started and stopped, and callbacks of any tag arrive. *)
Inductive action :=
| Start (target_name : list Z) (target_pid : Z)
| Stop
| StatusCallback (session_id : Z) (s : list Z)
| TextCallback (session_id now : Z) (text : list Z).

Definition act (w : window) (a : action) : window :=
  match a with
  | Start name pid => fst (_start_hook_service w name pid)
  | Stop => _stop_hook_service w
  | StatusCallback sid s => _on_hook_status w sid s
  | TextCallback sid now t => _on_hook_text_received w sid now t
  end.

Definition acts (w : window) (l : list action) : window := foldl act w l.

(** A window that has not started a hook session yet. *)
Definition fresh_window : window :=
  Window 0 false false false [] [] 0 true true true [].

End MainWindow.

(** ** The instrumentation agent: the JavaScript of [_frida_loop] *)

Module Agent.

Definition len (s : list Z) : Z := Z.of_nat (length s).

(** The characters [String.prototype.trim] removes. *)
Definition is_js_space (c : Z) : bool :=
  Ustr.in_range 9 13 c || (c =? 32) || (c =? 160) || (c =? 5760)
  || Ustr.in_range 8192 8202 c || (c =? 8232) || (c =? 8233)
  || (c =? 8239) || (c =? 8287) || (c =? 12288) || (c =? 65279).

Definition trim (s : list Z) : list Z := Ustr.strip_by is_js_space s.

Definition is_upper (c : Z) : bool := Ustr.in_range 65 90 c.
Definition is_lower (c : Z) : bool := Ustr.in_range 97 122 c.
Definition is_digit (c : Z) : bool := Ustr.in_range 48 57 c.
Definition is_letter (c : Z) : bool := is_upper c || is_lower c.
Definition is_hex (c : Z) : bool :=
  is_digit c || Ustr.in_range 65 70 c || Ustr.in_range 97 102 c.

(** [/^[A-Za-z]$/] *)
Definition re_one_letter (t : list Z) : bool :=
  match t with
  | [c] => is_letter c
  | _ => false
  end.

(** [/^[a-z]/] *)
Definition re_starts_lower (t : list Z) : bool :=
  match t with
  | c :: _ => is_lower c
  | [] => false
  end.

(** [/^[0-9A-Fa-f]{8,}$/] *)
Definition re_hex_dump (t : list Z) : bool :=
  (8 <=? len t) && forallb is_hex t.

(** The class of U+3000 to U+9FFF, anywhere in the text. *)
Definition re_has_cjk (t : list Z) : bool :=
  existsb (Ustr.in_range 12288 40959) t.

(** [/^[a-zA-Z0-9]$/] *)
Definition re_one_alnum (t : list Z) : bool :=
  match t with
  | [c] => is_letter c || is_digit c
  | _ => false
  end.

(** [/^[a-z][a-z0-9_]*$/] *)
Definition re_identifier (t : list Z) : bool :=
  match t with
  | c :: r =>
    is_lower c && forallb (fun x => is_lower x || is_digit x || (x =? 95)) r
  | [] => false
  end.

(** [/^[A-Z][A-Z0-9_]*$/] *)
Definition re_constant (t : list Z) : bool :=
  match t with
  | c :: r =>
    is_upper c && forallb (fun x => is_upper x || is_digit x || (x =? 95)) r
  | [] => false
  end.

(** [/\(&[A-Z0-9]\)(\.\.\.)?$/], read from the end of the text. *)
Definition re_menu_item (t : list Z) : bool :=
  let accel r :=
    match r with
    | 41 :: c :: 38 :: 40 :: _ => is_upper c || is_digit c
    | _ => false
    end in
  accel (rev t)
  || (Ustr.startswith (rev t) (u"...") && accel (drop 3 (rev t))).

(** [s.indexOf(p) > 0] *)
Definition index_positive (s p : list Z) : bool :=
  match Ustr.index_of s p with
  | Some (S _) => true
  | _ => false
  end.

Definition BAD_STRINGS : list (list Z) :=
  [u"voice"; u"movie"; u"overlay"; u"transient"; u"None"; u"master";
   u"splash_message"; u"transform"; u"image_placement"; u"default";
   u"bytecode"; u"none"; u"unicode"; u"tex"; u"suppress_overlay";
   u"music"; u"from"; u"to"; u"loop"; u"True"; u"python"; u"label";
   u"screens"; u"main_menu"; u"jump"; u"if"; u"call"; u"audio"; u"t1";
   u"return"; u"pass"; u"False"; u"gui"; u"vbox"; u"hbox"; u"null";
   u"solid"; u"frame"; u"window"; u"text"; u"button"; u"bar";
   u"viewport"; u"imagemap"; u"timer"; u"key"; u"input"; u"grid";
   u"style_prefix"; u"navigation_xpos"; u"navigation_spacing";
   u"narrator"; u"say"; u"who"; u"what"; u"id"; u"style"; u"self";
   u"child"; u"replaces"; u"scope"; u"function"; u"focus"; u"xalign";
   u"yalign"; u"spacing"; u"layout"; u"clicked"; u"text_style";
   u"substitute"; u"text_"; u"button_text"; u"hovered"; u"unhovered";
   u"action"; u"say_window"; u"title"; u"main_menu_background";
   u"subpixel"; u"ease_cubic"; u"activate_sound";
   u"game_menu_background"; u"scroll"; u"context"; u"vpfunc";
   u"scrollbars"; u"vscrollbar"; u"side_"; u"positions"; u"child_size";
   u"offsets"; u"xadjustment"; u"yadjustment"; u"set_adjustments";
   u"mousewheel"; u"draggable"; u"edgescroll"; u"xinitial"; u"yinitial";
   u"role"; u"time_policy"; u"keymap"; u"alternate"; u"selected";
   u"sensitive"; u"keysym"; u"alternate_keysym"; u"page_name_value";
   u"length"; u"allow"; u"exclude"; u"prefix"; u"suffix"; u"ground";
   u"idle"; u"hover"; u"insensitive"; u"selected_idle";
   u"selected_hover"; u"st"; u"at"; u"range"; u"value"; u"changed";
   u"adjustment"; u"step"; u"page"; u"xpos"; u"ypos"; u"xanchor";
   u"yanchor"; u"xoffset"; u"yoffset"; u"xmaximum"; u"ymaximum";
   u"xminimum"; u"yminimum"; u"xfill"; u"yfill"; u"top_padding";
   u"bottom_padding"; u"left_padding"; u"right_padding"; u"top_margin";
   u"bottom_margin"; u"left_margin"; u"right_margin"; u"size_group";
   u"events"; u"trans"; u"show"; u"hide"; u"scene"; u"config"; u"store";
   u"persistent"; u"name"; u"screen"].

(** The property names every object inherits: [BAD_STRINGS[t]] is truthy
    for them as well. *)
Definition OBJECT_PROTOTYPE : list (list Z) :=
  [u"constructor"; u"hasOwnProperty"; u"isPrototypeOf";
   u"propertyIsEnumerable"; u"toLocaleString"; u"toString"; u"valueOf";
   u"__proto__"; u"__defineGetter__"; u"__defineSetter__";
   u"__lookupGetter__"; u"__lookupSetter__"].

Definition BAD_SUBSTRINGS : list (list Z) :=
  [u"Test 1:"; u"Test 2:"; u"Test 3:"; u"Test 4:"; u"Test 5:"; u"PID:";
   u"Run ScreenTranslator"; u"Select this window"; u"Click buttons below";
   u"Ready..."; u"GetTextExtentPoint32W"; u"Running Typewriter";
   u"Typewriter Done"].

(** What [send] is called with for a text: [{text, threadId, label}]
    without the thread id. *)
Record message := Message { m_text : list Z; m_label : list Z }.

(** The script's variables.  A timer variable holds the deadline of the
    pending call-back, [None] once it ran or was cleared.  An absent
    [label] argument is the empty string: every use of a label is the
    left operand of [||]. *)
Record agent := AgentState {
  _lastText : list Z;
  _lastTime : Z;
  _globalMsgCount : Z;
  _startTime : Z;
  _uCharBuf : list Z;
  _uCharTimer : option Z;
  _uCharLabel : list Z;
  _growBuf : list Z;
  _growTimer : option Z;
  _growLabel : list Z;
  _growSent : bool;
  _glBuf : list Z;
  _glTimer : option Z
}.

(** The variables when the script was loaded at [start]. *)
Definition loaded (start : Z) : agent :=
  AgentState [] 0 0 start [] None [] [] None [] false [] None.

Definition set_last (a : agent) (t : list Z) (now : Z) : agent :=
  AgentState t now (_globalMsgCount a) (_startTime a)
             (_uCharBuf a) (_uCharTimer a) (_uCharLabel a)
             (_growBuf a) (_growTimer a) (_growLabel a) (_growSent a)
             (_glBuf a) (_glTimer a).

Definition count_message (a : agent) : agent :=
  AgentState (_lastText a) (_lastTime a) (_globalMsgCount a + 1)
             (_startTime a)
             (_uCharBuf a) (_uCharTimer a) (_uCharLabel a)
             (_growBuf a) (_growTimer a) (_growLabel a) (_growSent a)
             (_glBuf a) (_glTimer a).

Definition set_uchar (a : agent) (buf : list Z) (timer : option Z)
    (label : list Z) : agent :=
  AgentState (_lastText a) (_lastTime a) (_globalMsgCount a) (_startTime a)
             buf timer label
             (_growBuf a) (_growTimer a) (_growLabel a) (_growSent a)
             (_glBuf a) (_glTimer a).

Definition set_grow (a : agent) (buf : list Z) (timer : option Z)
    (label : list Z) (sent : bool) : agent :=
  AgentState (_lastText a) (_lastTime a) (_globalMsgCount a) (_startTime a)
             (_uCharBuf a) (_uCharTimer a) (_uCharLabel a)
             buf timer label sent
             (_glBuf a) (_glTimer a).

Definition set_gl (a : agent) (buf : list Z) (timer : option Z) : agent :=
  AgentState (_lastText a) (_lastTime a) (_globalMsgCount a) (_startTime a)
             (_uCharBuf a) (_uCharTimer a) (_uCharLabel a)
             (_growBuf a) (_growTimer a) (_growLabel a) (_growSent a)
             buf timer.

(** [x || y] on strings. *)
Definition or_else (x y : list Z) : list Z :=
  match x with
  | [] => y
  | _ => x
  end.

(** Every character equals the first one. *)
Definition all_same (s : list Z) : bool :=
  match s with
  | [] => true
  | c :: r => forallb (Z.eqb c) r
  end.

(** [t[0] === t[1]], [t[2] === t[3]], ... *)
Fixpoint pairs_equal (t : list Z) : bool :=
  match t with
  | a :: b :: r => (a =? b) && pairs_equal r
  | _ => true
  end.

(** [t[0] + t[2] + t[4] + ...] *)
Fixpoint evens (t : list Z) : list Z :=
  match t with
  | a :: _ :: r => a :: evens r
  | _ => t
  end.

(** [normalizePrefixBuf] *)
Definition normalizePrefixBuf (s : list Z) : list Z :=
  match s with
  | [] => []
  | c :: _ =>
    if all_same s then [c]
    else if (4 <=? len s) && Z.even (len s) && pairs_equal s then evens s
    else s
  end.

(** The number of positions whose character equals the next one. *)
Fixpoint dup_count (s : list Z) : Z :=
  match s with
  | a :: (b :: _) as s' => (if a =? b then 1 else 0) + dup_count s'
  | _ => 0
  end.

(** The second loop of [cleanDoubles]: of two equal neighbours one is
    kept and the scan goes on after both. *)
Fixpoint collapse (s : list Z) : list Z :=
  match s with
  | a :: (b :: r) as s' =>
    if a =? b then a :: collapse r else a :: collapse s'
  | _ => s
  end.

(** [cleanDoubles].  The test [dupCount / s.length >= 0.40] is between
    a quotient of two small integers and the double nearest to 2/5;
    rounding is monotone and no quotient other than 2/5 itself is within
    rounding distance of it, so the test is [5 * dupCount >= 2 * length]. *)
Definition cleanDoubles (s : list Z) : list Z :=
  if len s <? 2 then s
  else if 2 * len s <=? 5 * dup_count s then collapse s
  else s.

(** The filters of [sendTextInternal] between the update of [_lastText]
    and the call of [send]: [true] when the text is dropped. *)
Definition rejected (t : list Z) : bool :=
  let hasCJK := existsb (Ustr.in_range 19968 40959) t in
  ((len t <? 2) && negb hasCJK && negb (re_one_alnum t))
  || existsb (Ustr.eqb t) (BAD_STRINGS ++ OBJECT_PROTOTYPE)
  || existsb (Ustr.contains t) BAD_SUBSTRINGS
  || Ustr.endswith t (u"$")
  || Ustr.startswith t (u"_")
  || Ustr.startswith t (u"%")
  || (Ustr.startswith t (u"<") && Ustr.endswith t (u">"))
  || (Ustr.startswith t (u"[") && Ustr.endswith t (u"]"))
  || existsb (Ustr.eqb t)
       [u"GetTextExtentPoint32W"; u"GetTextExtentExPointW"; u"TextOutW";
        u"ExtTextOutW"]
  || (Ustr.startswith t (u"{") && Ustr.endswith t (u"}"))
  || re_identifier t
  || (re_constant t && index_positive t (u"_"))
  || ((Ustr.contains t (u"/") || Ustr.contains t [92])
      && (index_positive t (u".rpy") || index_positive t (u".png")
          || index_positive t (u".jpg") || index_positive t (u".ogg")))
  || re_menu_item t.

(** [sendTextInternal] at clock reading [now]. *)
Definition sendTextInternal (a : agent) (now : Z) (t label : list Z)
  : agent * list message :=
  let recent := now - _lastTime a <? 200 in
  if Ustr.eqb t (_lastText a) && recent then (set_last a (_lastText a) now, [])
  else
    let isDouble := (4 <=? len t) && Z.even (len t) && pairs_equal t in
    let t := if isDouble then evens t else t in
    if isDouble && Ustr.eqb t (_lastText a) && recent then (a, [])
    else
      let a1 := set_last a t now in
      if rejected t then (a1, [])
      else (count_message a1, [Message t (or_else label (u"unknown"))]).

(** The call-back every [_growTimer] is armed with. *)
Definition grow_callback (a : agent) (now : Z) : agent * list message :=
  let a0 := set_grow a (_growBuf a) None (_growLabel a) (_growSent a) in
  match _growBuf a with
  | [] => (a0, [])
  | _ =>
    if _growSent a then (a0, [])
    else
      let '(a1, out) := sendTextInternal a0 now (_growBuf a) (_growLabel a) in
      (set_grow a1 (_growBuf a1) (_growTimer a1) (_growLabel a1) true, out)
  end.

(** The call-back every [_uCharTimer] is armed with. *)
Definition uchar_callback (a : agent) (now : Z) : agent * list message :=
  let a0 := set_uchar a (_uCharBuf a) None (_uCharLabel a) in
  match _uCharBuf a with
  | [] => (a0, [])
  | _ =>
    let '(a1, out) := sendTextInternal a0 now (_uCharBuf a) (_uCharLabel a) in
    (set_uchar a1 [] (_uCharTimer a1) (_uCharLabel a1), out)
  end.

(** The text after the single-letter repairs at the head of [sendText]:
    a lone letter sent just before, or a short run of one capital, is put
    back in front of a lower-case continuation. *)
Definition rejoin_last (a : agent) (now : Z) (t : list Z) : list Z :=
  if negb (Ustr.eqb (_lastText a) []) && (len (_lastText a) =? 1)
     && (now - _lastTime a <? 1200) && (2 <=? len t)
     && re_one_letter (_lastText a) && re_starts_lower t
     && negb (Ustr.startswith t (_lastText a))
     && negb (Ustr.startswith t [32]) && negb (Ustr.startswith t [12288])
  then _lastText a ++ t
  else t.

Definition rejoin_capital_run (a : agent) (t : list Z) : list Z :=
  match _lastText a, t with
  | c :: _, t0 :: _ =>
    if (2 <=? len (_lastText a)) && (len (_lastText a) <=? 4)
       && (3 <=? len t) && all_same (_lastText a)
       && is_upper c && is_lower t0 && negb (Ustr.startswith t [c])
    then c :: t
    else t
  | _, _ => t
  end.

(** The garbage filters of [sendText], on the trimmed text. *)
Definition garbage (trimmed : list Z) : bool :=
  Ustr.startswith trimmed (u"0x") || Ustr.startswith trimmed (u"0X")
  || Ustr.contains trimmed [92; 117]
  || re_hex_dump trimmed
  || ((50 <? len trimmed) && negb (Ustr.contains trimmed [32])
      && negb (re_has_cjk trimmed)).

Definition nonempty (s : list Z) : bool := negb (Ustr.eqb s []).

Definition starts_blank (s : list Z) : bool :=
  Ustr.startswith s [32] || Ustr.startswith s [12288].

(** [sendText] at clock reading [now]; every [setTimeout(..., 300)] is
    recorded as the deadline [now + 300]. *)
Definition sendText (a : agent) (now : Z) (t label : list Z)
  : agent * list message :=
  if now - _startTime a <? 1000 then (a, [])
  else if Ustr.eqb t [] then (a, [])
  else
    let t := rejoin_last a now t in
    if (len t =? 1) && nonempty (_growBuf a) && negb (_growSent a)
       && re_one_letter t && re_starts_lower (_growBuf a)
       && negb (Ustr.startswith (_growBuf a) t)
       && negb (starts_blank (_growBuf a))
    then (set_grow a (t ++ _growBuf a) (Some (now + 300))
                   (or_else label (_growLabel a)) (_growSent a), [])
    else
      let t := rejoin_capital_run a t in
      let trimmed := trim t in
      if garbage trimmed then (a, [])
      else if nonempty (_growBuf a) && Ustr.eqb t (_growBuf a) then (a, [])
      else if nonempty (_growBuf a) && Ustr.startswith t (_growBuf a)
              && (len (_growBuf a) <? len t)
              && (len t - len (_growBuf a) <? 50)
      then (set_grow a t (Some (now + 300))
                     (or_else label (_growLabel a)) false, [])
      else if len t =? 1 then
        if Ustr.eqb trimmed [] && negb (Ustr.eqb t [32])
           && negb (Ustr.eqb t [12288])
        then (a, [])
        else (set_uchar a (_uCharBuf a ++ t) (Some (now + 300))
                        (or_else label (u"Typewriter")), [])
      else
        let '(a1, out1) :=
          if nonempty (_growBuf a) && negb (_growSent a)
          then sendTextInternal a now (_growBuf a) (_growLabel a)
          else (a, []) in
        let uNorm := normalizePrefixBuf (_uCharBuf a1) in
        let start_new (a' : agent) (out : list message) :=
          (set_grow a' t (Some (now + 300)) label false, out) in
        if nonempty uNorm && Ustr.startswith t uNorm
        then start_new (set_uchar a1 [] None (_uCharLabel a1)) out1
        else if nonempty uNorm && (len uNorm <=? 6) && (1 <? len t)
                && negb (starts_blank t)
                && negb (starts_blank (rev uNorm))
        then
          let a2 := set_uchar a1 [] None (_uCharLabel a1) in
          (set_grow a2 (uNorm ++ t) (Some (now + 300))
                    (or_else label (or_else (_uCharLabel a1) (_growLabel a1)))
                    false,
           out1)
        else if nonempty uNorm then
          let '(a2, out2) := sendTextInternal a1 now uNorm (_uCharLabel a1) in
          start_new (set_uchar a2 [] None (_uCharLabel a2)) (out1 ++ out2)
        else start_new a1 out1.

(** [sendGl] of [hookGetGlyphOutline]: one glyph joins the glyph buffer
    and the 150 ms timer starts again. *)
Definition sendGl (a : agent) (now : Z) (t : list Z) : agent :=
  set_gl a (_glBuf a ++ t) (Some (now + 150)).

(** The call-back of [_glTimer]. *)
Definition gl_callback (a : agent) (now : Z) : agent * list message :=
  let a0 := set_gl a (_glBuf a) None in
  match _glBuf a with
  | [] => (a0, [])
  | _ =>
    let '(a1, out) :=
      sendText a0 now (cleanDoubles (_glBuf a)) (u"GetGlyphOutline") in
    (set_gl a1 [] (_glTimer a1), out)
  end.

(** What reaches the script: a hooked call delivers a text fragment or
    one glyph, or a timer runs its call-back. *)
Inductive input :=
| Fragment (t label : list Z)
| Glyph (t : list Z)
| GrowTimer
| UCharTimer
| GlTimer.

Definition due (timer : option Z) (now : Z) : bool :=
  match timer with
  | Some deadline => deadline <=? now
  | None => false
  end.

(** One input at clock reading [now]; a timer that is not pending, or
    whose deadline lies ahead, cannot run: [None]. *)
Definition step (a : agent) (now : Z) (i : input)
  : option (agent * list message) :=
  match i with
  | Fragment t label => Some (sendText a now t label)
  | Glyph t => Some (sendGl a now t, [])
  | GrowTimer =>
    if due (_growTimer a) now then Some (grow_callback a now) else None
  | UCharTimer =>
    if due (_uCharTimer a) now then Some (uchar_callback a now) else None
  | GlTimer =>
    if due (_glTimer a) now then Some (gl_callback a now) else None
  end.

(** A run of timed inputs from clock reading [clock] on; the clock does
    not go back.  The result is the final state with every message sent,
    oldest first. *)
Fixpoint run (a : agent) (clock : Z) (inputs : list (Z * input))
  : option (agent * list message) :=
  match inputs with
  | [] => Some (a, [])
  | (now, i) :: r =>
    if now <? clock then None
    else match step a now i with
         | None => None
         | Some (a1, out1) =>
           match run a1 now r with
           | None => None
           | Some (a2, out2) => Some (a2, out1 ++ out2)
           end
         end
  end.

(** No call-back is waiting. *)
Definition quiet (a : agent) : bool :=
  match _growTimer a, _uCharTimer a, _glTimer a with
  | None, None, None => true
  | _, _, _ => false
  end.

Definition is_timer (i : input) : bool :=
  match i with
  | GrowTimer | UCharTimer | GlTimer => true
  | _ => false
  end.

(** The typewriter sequence of the word Hello, with its arrival times. *)
Definition hello_fragments (t1 t2 t3 t4 t5 : Z) (label : list Z)
  : list (Z * input) :=
  [(t1, Fragment (u"H") label); (t2, Fragment (u"He") label);
   (t3, Fragment (u"Hel") label); (t4, Fragment (u"Hell") label);
   (t5, Fragment (u"Hello") label)].

(** The script's variables after the first letter arrived at [t]. *)
Definition s1 (start : Z) (label : list Z) (t : Z) : agent :=
  AgentState [] 0 0 start (u"H") (Some (t + 300))
             (or_else label (u"Typewriter")) [] None [] false [] None.

(** The script's variables while [buf] grows, last extended at [t]. *)
Definition sg (start : Z) (label buf : list Z) (t : Z) : agent :=
  AgentState [] 0 0 start [] None (or_else label (u"Typewriter"))
             buf (Some (t + 300)) label false [] None.

(** Every character of [s] twice in a row. *)
Fixpoint double (s : list Z) : list Z :=
  match s with
  | [] => []
  | c :: r => c :: c :: double r
  end.

End Agent.

(** * Verification *)

Section ThreadFacts.
Import HookClient.

(** ** Deduplication and debounce *)

Lemma eqb_true s t : Ustr.eqb s t = true ↔ s = t.
Proof. unfold Ustr.eqb. apply bool_decide_eq_true. Qed.

Lemma eqb_false s t : Ustr.eqb s t = false ↔ s ≠ t.
Proof. unfold Ustr.eqb. apply bool_decide_eq_false. Qed.

Lemma eqb_refl s : Ustr.eqb s s = true.
Proof. by apply eqb_true. Qed.

Lemma seen_add_fresh st h :
  h ∉ _seen_set st →
  ∃ d s, _seen_add st h = (with_seen st (append d h) (s ∪ {[h]}), true).
Proof.
  intros Hh. unfold _seen_add. rewrite bool_decide_eq_false_2 by done.
  destruct (_ <=? _)%nat; [destruct (popleft _) as [[old d']|]|]; eauto.
Qed.

Lemma seen_add_known st h : h ∈ _seen_set st → _seen_add st h = (st, false).
Proof. intros Hh. unfold _seen_add. by rewrite bool_decide_eq_true_2. Qed.

Lemma seen_add_config st h :
  let st' := fst (_seen_add st h) in
  _debounce_ms st' = _debounce_ms st ∧ _last_text st' = _last_text st
  ∧ _last_emit_ts st' = _last_emit_ts st ∧ _max_chars st' = _max_chars st
  ∧ _min_chars st' = _min_chars st ∧ _pid st' = _pid st
  ∧ _prefer_frida_only st' = _prefer_frida_only st.
Proof.
  unfold _seen_add. case_bool_decide; [done|].
  destruct (_ <=? _)%nat; [destruct (popleft _) as [[old d']|]|]; done.
Qed.

(** C1.  Dedup idempotence: when [t] is neither the last emission nor in
    the dedup window, and [t1 < t2] lie less than the debounce window
    apart, [_should_emit] answers [True] at [t1] and [False] to the call
    that follows at [t2]. *)
Theorem should_emit_idempotent (hash : list Z → Z) st t t1 t2 :
  t ≠ _last_text st →
  hash t ∉ _seen_set st →
  t1 < t2 →
  t2 - t1 < _debounce_ms st →
  (_should_emit hash st t1 t).2 = true
  ∧ (_should_emit hash (_should_emit hash st t1 t).1 t2 t).2 = false.
Proof.
  intros Hlast Hwin Hlt Hgap.
  assert (E1 : _should_emit hash st t1 t = _seen_add (with_last st t t1) (hash t)).
  { unfold _should_emit. by rewrite (proj2 (eqb_false _ _) Hlast). }
  rewrite E1.
  destruct (seen_add_fresh (with_last st t t1) (hash t) Hwin) as (d & s & E2).
  rewrite E2. split; [done|].
  unfold _should_emit. cbn.
  rewrite eqb_refl. cbn.
  by rewrite (proj2 (Z.ltb_lt _ _) Hgap).
Qed.

Lemma seen_add_items st h :
  window_ok st → h ∉ _seen_set st →
  (length (items (_seen st)) < 300)%nat
  ∧ items (_seen (_seen_add st h).1) = items (_seen st) ++ [h]
  ∧ maxlen (_seen (_seen_add st h).1) = 300%nat
  ∧ _seen_set (_seen_add st h).1 = _seen_set st ∪ {[h]}
  ∨ (∃ old rest, items (_seen st) = old :: rest
     ∧ length (items (_seen st)) = 300%nat
     ∧ items (_seen (_seen_add st h).1) = rest ++ [h]
     ∧ maxlen (_seen (_seen_add st h).1) = 300%nat
     ∧ _seen_set (_seen_add st h).1 = _seen_set st ∖ {[old]} ∪ {[h]}).
Proof.
  intros (Hnd & Hset & Hlen & Hmax) Hh.
  unfold _seen_add. rewrite bool_decide_eq_false_2 by done.
  destruct (_seen st) as [l m] eqn:Hs. cbn in *. subst m.
  destruct (300 <=? length l)%nat eqn:Hfull.
  - apply Nat.leb_le in Hfull. right.
    destruct l as [|old rest]; [cbn in Hfull; lia|].
    exists old, rest. unfold popleft. cbn.
    assert (length rest = 299%nat) as Hr by (cbn in *; lia).
    unfold append. cbn. rewrite Hr. cbn. repeat split; try done.
  - apply Nat.leb_gt in Hfull. left.
    unfold append. cbn [items maxlen Nat.eqb].
    rewrite (proj2 (Nat.ltb_lt _ _) Hfull). cbn. done.
Qed.

Lemma seen_add_ok st h : window_ok st → window_ok (_seen_add st h).1.
Proof.
  intros Hok.
  destruct (decide (h ∈ _seen_set st)) as [Hin|Hout].
  { by rewrite seen_add_known. }
  pose proof Hok as (Hnd & Hset & Hlen & Hmax).
  destruct (seen_add_items st h Hok Hout)
    as [(Hl & Hi & Hm & Hs)|(old & rest & Ho & Hl & Hi & Hm & Hs)].
  - unfold window_ok. rewrite Hi, Hm, Hs. repeat split.
    + apply NoDup_app. repeat split; [done| |apply NoDup_singleton].
      intros x Hx Hx'. apply list_elem_of_singleton in Hx'. subst x.
      by apply Hout, Hset.
    + intros Hx. apply elem_of_app. apply elem_of_union in Hx as [Hx|Hx].
      * left. by apply Hset.
      * right. apply elem_of_singleton in Hx. subst. apply list_elem_of_singleton. done.
    + intros Hx. apply elem_of_app in Hx as [Hx|Hx]; apply elem_of_union.
      * left. by apply Hset.
      * right. apply list_elem_of_singleton in Hx. subst. by apply elem_of_singleton.
    + rewrite length_app. cbn. lia.
  - unfold window_ok. rewrite Hi, Hm, Hs. rewrite Ho in *.
    apply NoDup_cons in Hnd as [Hold Hnd].
    repeat split.
    + apply NoDup_app. repeat split; [done| |apply NoDup_singleton].
      intros x Hx Hx'. apply list_elem_of_singleton in Hx'. subst x.
      apply Hout, Hset. by right.
    + intros Hx. apply elem_of_app. apply elem_of_union in Hx as [Hx|Hx].
      * left. apply elem_of_difference in Hx as [Hx Hne].
        apply Hset in Hx. apply elem_of_cons in Hx as [->|Hx]; [|done].
        exfalso. apply Hne. by apply elem_of_singleton.
      * right. apply elem_of_singleton in Hx. subst. by apply list_elem_of_singleton.
    + intros Hx. apply elem_of_app in Hx as [Hx|Hx]; apply elem_of_union.
      * left. apply elem_of_difference. split.
        -- apply Hset. by right.
        -- intros Heq. apply elem_of_singleton in Heq. by subst.
      * right. apply list_elem_of_singleton in Hx. subst. by apply elem_of_singleton.
    + rewrite length_app. cbn in *. lia.
Qed.

Lemma with_last_ok st t now : window_ok st → window_ok (with_last st t now).
Proof. done. Qed.

Lemma should_emit_ok hash st now t :
  window_ok st → window_ok (_should_emit hash st now t).1.
Proof.
  intros Hok. unfold _should_emit.
  destruct (_ && _); [done|]. by apply seen_add_ok, with_last_ok.
Qed.

Lemma should_emit_all_ok hash calls : ∀ st,
  window_ok st → window_ok (should_emit_all hash st calls).
Proof.
  induction calls as [|[now t] r IH]; intros st Hok; [done|].
  cbn. by apply IH, should_emit_ok.
Qed.

Lemma init_ok pid mn mx db port e1 e2 e3 e4 pf :
  window_ok (__init__ pid mn mx db port e1 e2 e3 e4 pf).
Proof.
  unfold window_ok. cbn. split_and!; [apply NoDup_nil_2|set_solver|lia|done].
Qed.

Lemma window_ok_size st :
  window_ok st → size (_seen_set st) = length (items (_seen st)).
Proof.
  intros (Hnd & Hset & _).
  rewrite <- (size_list_to_set (C:=gset Z) (items (_seen st))) by done.
  f_equal. apply set_eq. intros x. rewrite elem_of_list_to_set. apply Hset.
Qed.

Lemma seen_add_all_snoc st hs h :
  seen_add_all st (hs ++ [h]) = (_seen_add (seen_add_all st hs) h).1.
Proof. unfold seen_add_all. by rewrite foldl_app. Qed.

Lemma seen_add_all_ok hs : ∀ st, window_ok st → window_ok (seen_add_all st hs).
Proof.
  induction hs as [|h r IH] using rev_ind; intros st Hok; [done|].
  rewrite seen_add_all_snoc. by apply seen_add_ok, IH.
Qed.

Lemma seen_add_all_distinct st hs :
  window_ok st → items (_seen st) = [] → NoDup hs →
  items (_seen (seen_add_all st hs)) = drop (length hs - 300) hs.
Proof.
  intros Hok Hempty. induction hs as [|h r IH] using rev_ind; intros Hnd.
  { unfold seen_add_all. cbn. by rewrite Hempty. }
  apply NoDup_app in Hnd as (Hr & Hfresh & _).
  specialize (IH Hr).
  rewrite seen_add_all_snoc.
  pose proof (seen_add_all_ok r st Hok) as Hok'.
  assert (h ∉ _seen_set (seen_add_all st r)) as Hout.
  { intros Hin. apply Hok' in Hin. rewrite IH in Hin.
    eapply Hfresh; [|by apply list_elem_of_singleton].
    rewrite <- (take_drop (length r - 300) r). apply elem_of_app. by right. }
  rewrite length_app. cbn.
  destruct (seen_add_items _ h Hok' Hout)
    as [(Hl & Hi & _)|(old & rest & Ho & Hl & Hi & _)].
  - rewrite Hi, IH. rewrite IH, length_drop in Hl.
    replace (length r + 1 - 300)%nat with 0%nat by lia.
    replace (length r - 300)%nat with 0%nat by lia. done.
  - rewrite Hi. rewrite IH in Ho, Hl. rewrite length_drop in Hl.
    rewrite drop_app_le by lia. f_equal.
    replace (length r + 1 - 300)%nat with (S (length r - 300)) by lia.
    replace (S (length r - 300)) with ((length r - 300) + 1)%nat by lia.
    by rewrite <- drop_drop, Ho.
Qed.

Lemma seen_add_same_window a b h :
  same_window a b → same_window (_seen_add a h).1 (_seen_add b h).1.
Proof.
  intros [Hs Hset]. unfold _seen_add. rewrite Hs, Hset.
  case_bool_decide; [done|].
  destruct (_ <=? _)%nat; [destruct (popleft _) as [[old d']|]|]; done.
Qed.

Lemma should_emit_last_text hash st now t :
  _last_text (_should_emit hash st now t).1 = t.
Proof.
  unfold _should_emit.
  destruct (Ustr.eqb t (_last_text st)) eqn:E; cbn.
  - apply eqb_true in E. destruct (_ <? _); [done|].
    by destruct (seen_add_config (with_last st t now) (hash t)) as (_ & -> & _).
  - by destruct (seen_add_config (with_last st t now) (hash t)) as (_ & -> & _).
Qed.

Lemma should_emit_all_snoc hash calls : ∀ st now t,
  should_emit_all hash st (calls ++ [(now, t)])
  = (_should_emit hash (should_emit_all hash st calls) now t).1.
Proof.
  induction calls as [|[n x] r IH]; intros st now t; [done|]. cbn. apply IH.
Qed.

Lemma should_emit_all_last_text hash calls : ∀ st,
  _last_text (should_emit_all hash st calls)
  = default (_last_text st) (snd <$> last calls).
Proof.
  induction calls as [|[now t] r IH] using rev_ind; intros st; [reflexivity|].
  rewrite should_emit_all_snoc, should_emit_last_text, last_snoc. done.
Qed.

Lemma should_emit_all_distinct hash st calls :
  _last_text st = [] →
  Forall (λ c, c.2 ≠ []) calls →
  NoDup ((λ c, hash c.2) <$> calls) →
  same_window (should_emit_all hash st calls)
              (seen_add_all st ((λ c, hash c.2) <$> calls)).
Proof.
  intros Hlast.
  induction calls as [|[now t] r IH] using rev_ind; intros Hne Hnd; [done|].
  rewrite fmap_app in *. cbn in *.
  apply Forall_app in Hne as [Hne Ht]. rewrite Forall_singleton in Ht. cbn in Ht.
  apply NoDup_app in Hnd as (Hr & Hfresh & _).
  specialize (IH Hne Hr).
  rewrite should_emit_all_snoc, seen_add_all_snoc.
  assert (t ≠ _last_text (should_emit_all hash st r)) as Hdiff.
  { rewrite should_emit_all_last_text, Hlast.
    destruct (last r) as [[n x]|] eqn:El; cbn; [|exact Ht].
    intros ->. apply (Hfresh (hash x)); [|by apply list_elem_of_singleton].
    apply list_elem_of_fmap. exists (n, x). split; [done|].
    apply last_Some in El as [l' ->]. apply elem_of_app. right.
    by apply list_elem_of_singleton. }
  unfold _should_emit at 1. rewrite (proj2 (eqb_false _ _) Hdiff). cbn.
  apply seen_add_same_window. done.
Qed.

(** C2.  After any sequence of [_should_emit] calls on a new thread the
    ring buffer holds at most 300 hashes, the companion set has the size
    of the buffer and the same members, an insertion into the full buffer
    removes its oldest hash and appends the new one, and 301 calls with
    non-empty texts of pairwise different hashes leave the hashes of the
    last 300, the first one evicted. *)
Theorem dedup_window_bounded_fifo (hash : list Z → Z)
    pid mn mx db port e1 e2 e3 e4 pf (calls : list (Z * list Z)) :
  let st0 := __init__ pid mn mx db port e1 e2 e3 e4 pf in
  let st := should_emit_all hash st0 calls in
  ((length (items (_seen st)) ≤ 300)%nat
   ∧ size (_seen_set st) = length (items (_seen st))
   ∧ (∀ h, h ∈ _seen_set st ↔ h ∈ items (_seen st)))
  ∧ (∀ h old rest,
       h ∉ _seen_set st →
       items (_seen st) = old :: rest →
       length (items (_seen st)) = 300%nat →
       items (_seen (fst (_seen_add st h))) = rest ++ [h]
       ∧ (old ∉ _seen_set (fst (_seen_add st h)))
       ∧ size (_seen_set (fst (_seen_add st h))) = 300%nat)
  ∧ (Forall (λ c, c.2 ≠ []) calls →
     NoDup ((λ c, hash c.2) <$> calls) →
     length calls = 301%nat →
     items (_seen st) = drop 1 ((λ c, hash c.2) <$> calls)
     ∧ size (_seen_set st) = 300%nat).
Proof.
  intros st0 st.
  assert (window_ok st0) as Hok0 by apply init_ok.
  assert (window_ok st) as Hok by by apply should_emit_all_ok.
  pose proof Hok as (Hnd & Hset & Hlen & Hmax).
  split_and!.
  - lia.
  - by apply window_ok_size.
  - done.
  - intros h old rest Hout Hitems Hfull.
    pose proof (seen_add_ok st h Hok) as Hok'.
    destruct (seen_add_items st h Hok Hout)
      as [(Hl & _)|(old' & rest' & Ho & _ & Hi & _ & Hs)]; [lia|].
    rewrite Hitems in Ho. injection Ho as <- <-.
    split_and!; [done| |].
    + intros Hin. apply Hok' in Hin. rewrite Hi in Hin.
      rewrite Hitems in Hnd. apply NoDup_cons in Hnd as [Hold _].
      apply elem_of_app in Hin as [Hin|Hin]; [done|].
      apply list_elem_of_singleton in Hin. subst old.
      apply Hout, Hset. rewrite Hitems. by left.
    + rewrite (window_ok_size _ Hok'), Hi, length_app.
      rewrite Hitems in Hfull. cbn in *. lia.
  - intros Hne Hdist Hn.
    destruct (should_emit_all_distinct hash st0 calls eq_refl Hne Hdist)
      as [Hs _].
    fold st in Hs.
    assert (items (_seen st) = drop 1 ((λ c, hash c.2) <$> calls)) as Hi.
    { rewrite Hs, (seen_add_all_distinct st0 _ Hok0 eq_refl Hdist).
      by rewrite length_fmap, Hn. }
    split; [done|].
    rewrite (window_ok_size _ Hok), Hi, length_drop, length_fmap, Hn. done.
Qed.

(** C1 at the default thread: ["Hello"] at 1000 ms and again at 1119 ms. *)
Lemma should_emit_idempotent_witness :
  let st := default_thread 4242 in
  (_should_emit hash_head st 1000 (u"Hello")).2 = true
  ∧ (_should_emit hash_head (_should_emit hash_head st 1000 (u"Hello")).1
        1119 (u"Hello")).2 = false.
Proof.
  apply (should_emit_idempotent hash_head (default_thread 4242) (u"Hello") 1000 1119).
  - vm_compute. discriminate.
  - vm_compute. set_solver.
  - lia.
  - vm_compute. reflexivity.
Defined.

(** C2 on 301 one-character texts. *)
Lemma dedup_window_bounded_fifo_witness :
  let st := should_emit_all hash_head (default_thread 4242) (distinct_calls 301) in
  items (_seen st) = drop 1 ((λ c, hash_head c.2) <$> distinct_calls 301)
  ∧ size (_seen_set st) = 300%nat.
Proof.
  apply (dedup_window_bounded_fifo hash_head 4242 1 200 120 None true true true true false
           (distinct_calls 301)).
  - apply (bool_decide_unpack _). vm_compute. exact I.
  - apply (bool_decide_unpack _). vm_compute. exact I.
  - vm_compute. reflexivity.
Defined.


(** ** Stripping *)
Section Strip.
Variable sp : Z → bool.

Lemma lstrip_suffix s : ∃ pre, s = pre ++ Ustr.lstrip_by sp s.
Proof.
  induction s as [|a s IH]; [by exists []|]. cbn.
  destruct (sp a); [|by exists []].
  destruct IH as [pre IH]. exists (a :: pre). cbn. by rewrite <- IH.
Qed.

Lemma lstrip_head s a r : Ustr.lstrip_by sp s = a :: r → sp a = false.
Proof.
  induction s as [|b s IH]; [done|]. cbn.
  destruct (sp b) eqn:E; [done|]. by intros [= <- <-].
Qed.

Lemma lstrip_fixed s :
  (∀ a r, s = a :: r → sp a = false) → Ustr.lstrip_by sp s = s.
Proof.
  destruct s as [|a r]; [done|]. intros H. cbn. by rewrite (H a r).
Qed.

Lemma lstrip_idem s : Ustr.lstrip_by sp (Ustr.lstrip_by sp s) = Ustr.lstrip_by sp s.
Proof. apply lstrip_fixed. intros a r. apply lstrip_head. Qed.

Lemma strip_head s a r : Ustr.strip_by sp s = a :: r → sp a = false.
Proof.
  unfold Ustr.strip_by. intros H.
  destruct (lstrip_suffix (rev (Ustr.lstrip_by sp s))) as [pre Hpre].
  set (m := Ustr.lstrip_by sp s) in *.
  set (q := Ustr.lstrip_by sp (rev m)) in *.
  assert (m = rev q ++ rev pre) as Hm.
  { rewrite <- (rev_involutive m), Hpre, rev_app_distr. done. }
  rewrite H in Hm. cbn in Hm.
  by apply (lstrip_head s a (r ++ rev pre)).
Qed.

Lemma strip_idem s : Ustr.strip_by sp (Ustr.strip_by sp s) = Ustr.strip_by sp s.
Proof.
  assert (Ustr.lstrip_by sp (Ustr.strip_by sp s) = Ustr.strip_by sp s) as H1.
  { apply lstrip_fixed. intros a r. apply strip_head. }
  unfold Ustr.strip_by at 1. rewrite H1.
  unfold Ustr.strip_by. by rewrite rev_involutive, lstrip_idem.
Qed.

Lemma lstrip_take n s :
  (0 < n)%nat → Ustr.lstrip_by sp s = s →
  Ustr.lstrip_by sp (take n s) = take n s.
Proof.
  intros Hn Hs. destruct s as [|a r]; [by rewrite take_nil|].
  destruct n as [|n]; [lia|]. cbn in *.
  destruct (sp a) eqn:E; [|done].
  exfalso. destruct (lstrip_suffix r) as [pre Hpre].
  rewrite Hs in Hpre. apply (f_equal length) in Hpre.
  rewrite length_app in Hpre. cbn in Hpre. lia.
Qed.
End Strip.


Lemma should_emit_config hash st now t :
  _max_chars (fst (_should_emit hash st now t)) = _max_chars st
  ∧ _min_chars (fst (_should_emit hash st now t)) = _min_chars st
  ∧ _debounce_ms (fst (_should_emit hash st now t)) = _debounce_ms st
  ∧ _pid (fst (_should_emit hash st now t)) = _pid st
  ∧ _prefer_frida_only (fst (_should_emit hash st now t)) = _prefer_frida_only st.
Proof.
  unfold _should_emit. destruct (_ && _); [done|].
  destruct (seen_add_config (with_last st t now) (hash t))
    as (H1 & _ & _ & H2 & H3 & H4 & H5).
  cbn in *. by rewrite H1, H2, H3, H4, H5.
Qed.

Lemma emit_text_config hash st now text :
  _max_chars (fst (_emit_text hash st now text)) = _max_chars st.
Proof.
  unfold _emit_text. destruct (Ustr.eqb _ _); [done|].
  match goal with |- context [_should_emit hash st now ?p] =>
    pose proof (should_emit_config hash st now p) as (H & _);
    destruct (_should_emit hash st now p) as [st' ok] end.
  cbn in *. by destruct ok.
Qed.

Lemma emit_text_payload hash st now text p :
  1 ≤ _max_chars st →
  text_received p ∈ snd (_emit_text hash st now text) →
  p = Py.slice_to (_max_chars st) (Py.strip text)
  ∧ p ≠ []
  ∧ Py.len p ≤ _max_chars st
  ∧ Ustr.lstrip_by Py.isspace p = p
  ∧ (Py.len (Py.strip text) ≤ _max_chars st → p = Py.strip text ∧ Py.strip p = p).
Proof.
  intros Hmax. unfold _emit_text.
  destruct (Ustr.eqb (Py.strip text) []) eqn:Hempty; cbn; [by intros ?%elem_of_nil|].
  apply eqb_false in Hempty.
  set (payload := if _max_chars st <? Py.len (Py.strip text)
                  then Py.slice_to (_max_chars st) (Py.strip text)
                  else Py.strip text).
  destruct (_should_emit hash st now payload) as [st' ok].
  destruct ok; cbn; [|by intros ?%elem_of_nil].
  intros Hp%list_elem_of_singleton. injection Hp as ->.
  assert (payload = Py.slice_to (_max_chars st) (Py.strip text)) as Hpay.
  { subst payload. unfold Py.slice_to, Py.len.
    destruct (Z.ltb_spec (_max_chars st) (Z.of_nat (length (Py.strip text)))); [done|].
    rewrite take_ge; [done|lia]. }
  assert (Ustr.lstrip_by Py.isspace (Py.strip text) = Py.strip text) as Hl.
  { apply lstrip_fixed. intros a r. apply strip_head. }
  refine (conj _ (conj _ (conj _ (conj _ _)))).
  - done.
  - rewrite Hpay. unfold Py.slice_to.
    destruct (Py.strip text) as [|a r]; [done|].
    destruct (Z.to_nat (_max_chars st)) eqn:E; [lia|done].
  - rewrite Hpay. unfold Py.slice_to, Py.len. rewrite length_take. lia.
  - rewrite Hpay. unfold Py.slice_to. apply lstrip_take; [lia|done].
  - intros Hshort.
    assert (payload = Py.strip text) as ->.
    { rewrite Hpay. unfold Py.slice_to, Py.len in *. rewrite take_ge; [done|lia]. }
    split; [done|]. apply strip_idem.
Qed.

Lemma emit_text_all_config hash calls : ∀ st,
  _max_chars (fst (emit_text_all hash st calls)) = _max_chars st.
Proof.
  induction calls as [|[now t] r IH]; intros st; [done|]. cbn.
  pose proof (emit_text_config hash st now t) as H.
  destruct (_emit_text hash st now t) as [st1 out1]. specialize (IH st1).
  destruct (emit_text_all hash st1 r) as [st2 out2]. cbn in *. congruence.
Qed.

Lemma emit_text_all_payload hash calls : ∀ st p,
  1 ≤ _max_chars st →
  text_received p ∈ snd (emit_text_all hash st calls) →
  ∃ now text st',
    (now, text) ∈ calls ∧ _max_chars st' = _max_chars st
    ∧ text_received p ∈ snd (_emit_text hash st' now text).
Proof.
  induction calls as [|[now t] r IH]; intros st p Hmax; cbn.
  { by intros ?%elem_of_nil. }
  pose proof (emit_text_config hash st now t) as Hc.
  destruct (_emit_text hash st now t) as [st1 out1] eqn:E1.
  specialize (IH st1 p).
  destruct (emit_text_all hash st1 r) as [st2 out2]. cbn in *.
  intros [Hin|Hin]%elem_of_app.
  - exists now, t, st. rewrite E1. split_and!; [by left|done|done].
  - destruct IH as (n & x & st' & Hx & Hm & Hp); [lia|done|].
    exists n, x, st'. split_and!; [by right|congruence|done].
Qed.

(** C10, as the code has it.  Every payload [_emit_text] emits on a thread
    built by the constructor (which clamps [min_chars] to at least 1 and
    [max_chars] to at least [min_chars]) is non-empty, has at most
    [max_chars] characters, starts with no white space, and is the first
    [max_chars] characters of the stripped candidate text: a longer
    candidate is cut, not dropped.  It equals its own stripped form when
    the stripped candidate needed no cut. *)
Theorem emit_text_payload_invariant (hash : list Z → Z)
    pid mn mx db port e1 e2 e3 e4 pf (calls : list (Z * list Z)) (p : list Z) :
  let st0 := __init__ pid mn mx db port e1 e2 e3 e4 pf in
  text_received p ∈ snd (emit_text_all hash st0 calls) →
  (1 ≤ _min_chars st0 ∧ _min_chars st0 ≤ _max_chars st0)
  ∧ p ≠ []
  ∧ Py.len p ≤ _max_chars st0
  ∧ Ustr.lstrip_by Py.isspace p = p
  ∧ ∃ now text,
      (now, text) ∈ calls
      ∧ p = Py.slice_to (_max_chars st0) (Py.strip text)
      ∧ (Py.len (Py.strip text) ≤ _max_chars st0 → Py.strip p = p).
Proof.
  intros st0 Hin.
  assert (1 ≤ _min_chars st0 ∧ _min_chars st0 ≤ _max_chars st0) as Hcl.
  { subst st0. cbn. lia. }
  destruct (emit_text_all_payload hash calls st0 p) as (now & text & st' & Hc & Hm & Hp);
    [lia|done|].
  destruct (emit_text_payload hash st' now text p) as (H1 & H2 & H3 & H4 & H5);
    [lia|done|].
  rewrite Hm in *.
  refine (conj Hcl (conj H2 (conj H3 (conj H4 _)))).
  exists now, text. refine (conj Hc (conj H1 _)). intros Hs. by apply H5.
Qed.

(** C10 on the candidate ["  Hello "]. *)
Lemma emit_text_payload_invariant_witness :
  (u"Hello" ≠ [] ∧ Py.len (u"Hello") ≤ 200)
  ∧ Py.strip (u"Hello") = u"Hello".
Proof.
  pose proof (emit_text_payload_invariant hash_head 4242 1 200 120 None
                true true true true false [(1000, u"  Hello ")] (u"Hello")) as H.
  destruct H as (_ & Hne & Hlen & _ & (now & text & Hc & Hp & Hs)).
  { vm_compute. by left. }
  apply list_elem_of_singleton in Hc. injection Hc as -> ->.
  split; [split; [exact Hne|exact Hlen]|].
  apply Hs. vm_compute. discriminate.
Defined.

(** C10 as stated fails where the cut falls behind a blank: 199 letters,
    a blank and two more letters are emitted as the 199 letters and the
    blank, which is not its own stripped form. *)
Lemma emit_text_truncation_keeps_trailing_space :
  let text := replicate 199 120 ++ u" yz" in
  let p := replicate 199 120 ++ [32] in
  snd (_emit_text hash_head (default_thread 4242) 1000 text) = [text_received p]
  ∧ Py.len p = 200
  ∧ Py.strip p = replicate 199 120
  ∧ Py.strip p ≠ p.
Proof.
  cbv zeta. refine (conj _ (conj _ (conj _ _))).
  - vm_compute. reflexivity.
  - vm_compute. reflexivity.
  - vm_compute. reflexivity.
  - apply eqb_false. vm_compute. reflexivity.
Qed.

(** ** The window-event channel *)

Lemma seen_add_true st h st' :
  _seen_add st h = (st', true) → h ∈ _seen_set st'.
Proof.
  unfold _seen_add. case_bool_decide; [done|].
  destruct (_ <=? _)%nat; [destruct (popleft _) as [[old d']|]|];
    intros [= <-]; cbn; set_solver.
Qed.

Lemma should_emit_true hash st now t st' :
  _should_emit hash st now t = (st', true) →
  hash t ∈ _seen_set st' ∧ _max_chars st' = _max_chars st.
Proof.
  intros H. pose proof (should_emit_config hash st now t) as (Hc & _).
  rewrite H in Hc. split; [|done].
  unfold _should_emit in H. destruct (_ && _); [done|].
  by apply seen_add_true in H.
Qed.

Lemma should_emit_seen hash st now t :
  hash t ∈ _seen_set st → snd (_should_emit hash st now t) = false.
Proof.
  intros H. unfold _should_emit. destruct (_ && _); [done|].
  by rewrite seen_add_known.
Qed.

Lemma emit_text_seen hash st now t :
  hash (Py.strip t) ∈ _seen_set st →
  Py.len (Py.strip t) ≤ _max_chars st →
  snd (_emit_text hash st now t) = [].
Proof.
  intros Hseen Hlen. unfold _emit_text.
  destruct (Ustr.eqb _ _); [done|].
  rewrite (proj2 (Z.ltb_ge _ _) Hlen).
  pose proof (should_emit_seen hash st now (Py.strip t) Hseen) as H.
  destruct (_should_emit hash st now (Py.strip t)) as [st' ok].
  cbn in H. by subst ok.
Qed.

Lemma read_text_length st ctl :
  0 ≤ _max_chars st →
  Py.len (_read_text_via_sendmessage st ctl) ≤ _max_chars st.
Proof.
  intros Hmax. unfold _read_text_via_sendmessage, Py.slice_to, Py.len.
  destruct (_ <=? 0); cbn; [lia|]. rewrite length_take. lia.
Qed.

Lemma read_text_negative st ctl :
  _max_chars st < 0 → _read_text_via_sendmessage st ctl = [].
Proof.
  intros Hmax. unfold _read_text_via_sendmessage, Py.slice_to.
  destruct (_ <=? 0); [done|].
  replace (Z.to_nat _) with 0%nat by lia. done.
Qed.

Lemma lstrip_length sp s : (length (Ustr.lstrip_by sp s) ≤ length s)%nat.
Proof.
  destruct (lstrip_suffix sp s) as [pre H].
  rewrite H at 2. rewrite length_app. lia.
Qed.

Lemma strip_length sp s : (length (Ustr.strip_by sp s) ≤ length s)%nat.
Proof.
  unfold Ustr.strip_by. rewrite length_rev.
  etrans; [apply lstrip_length|]. rewrite length_rev. apply lstrip_length.
Qed.

(** [_win_event_proc] asks [_should_emit] itself and then calls
    [_emit_text_with_source], whose [_emit_text] asks [_should_emit] again
    for the same text: the second answer is always [False]. *)
Lemma win_event_proc_silent (hash : list Z → Z) st now1 now2 ev :
  snd (_win_event_proc hash st now1 now2 ev) = [].
Proof.
  unfold _win_event_proc.
  destruct (ev_interrupted ev); [reflexivity|].
  destruct (ev_hwnd ev =? 0); [reflexivity|].
  destruct (negb (ev_id_object ev =? OBJID_CLIENT)); [reflexivity|].
  destruct (negb (default false (ev_is_window ev))); [reflexivity|].
  destruct (negb (default true (ev_is_visible ev))); [reflexivity|].
  destruct (ev_owner_pid ev) as [owner|]; [|reflexivity].
  destruct (negb (owner =? _pid st)); [reflexivity|].
  destruct (ev_event ev =? EVENT_SYSTEM_FOREGROUND); [reflexivity|].
  match goal with |- context [Py.strip ?r] => set (raw := r) end.
  destruct (Ustr.eqb (Py.strip raw) []) eqn:Hne; [reflexivity|].
  destruct (Py.len (Py.strip raw) <? _min_chars st); [reflexivity|].
  destruct (Z.lt_ge_cases (_max_chars st) 0) as [Hneg|Hpos].
  { exfalso. apply eqb_false in Hne. apply Hne. subst raw.
    rewrite read_text_negative by done. by destruct (_ || _). }
  assert (Py.len (Py.strip raw) ≤ _max_chars st) as Hlen.
  { pose proof (strip_length Py.isspace raw) as H1.
    assert (Py.len raw ≤ _max_chars st) as H2.
    { subst raw. destruct (_ || _); [by apply read_text_length|].
      unfold Py.len. cbn [length]. lia. }
    unfold Py.len, Py.strip in *. lia. }
  rewrite (proj2 (Z.ltb_ge _ _) Hlen).
  destruct (_should_emit hash st now1 (Py.strip raw)) as [st1 ok] eqn:E1.
  destruct ok; [|reflexivity]. cbn [negb].
  apply should_emit_true in E1 as [Hseen Hmax].
  assert (Py.strip (Py.strip raw) = Py.strip raw) as Hidem by apply strip_idem.
  unfold _emit_text_with_source. rewrite Hidem, Hne.
  destruct (_ && _); [reflexivity|].
  apply emit_text_seen; rewrite Hidem; [done|lia].
Qed.

(** C6 fails on the code.  A focus event of the target process on a
    control holding the new text ["Hello"] emits nothing, although
    [_should_emit] accepts that text and [_emit_text_with_source] alone
    would forward it; and no call of [_win_event_proc] emits anything. *)
Theorem win_event_text_not_forwarded (hash : list Z → Z) :
  let st := default_thread 4242 in
  let ev := focus_event 4242 (u"Hello") in
  snd (_should_emit hash st 1000 (u"Hello")) = true
  ∧ snd (_emit_text_with_source hash st 1000 (u"Hello") (u"win_event"))
    = [text_received (u"Hello")]
  ∧ snd (_win_event_proc hash st 1000 1000 ev) = []
  ∧ ∀ st' now1 now2 ev', snd (_win_event_proc hash st' now1 now2 ev') = [].
Proof.
  cbv zeta. refine (conj _ (conj _ (conj _ _))).
  - reflexivity.
  - reflexivity.
  - apply win_event_proc_silent.
  - intros. apply win_event_proc_silent.
Qed.

(** ** The socket ingest channel *)

Section WireFacts.
Variable hash : list Z → Z.
Variable jdict : Type.
Variable json_loads : list Z → option jdict.
Variable json_str : jdict → list Z → list Z.
Variable json_pid : jdict → option Z.
Variable int_of : list Z → option Z.

Lemma emit_text_with_source_socket st now text :
  _emit_text_with_source hash st now text (u"socket") = _emit_text hash st now text.
Proof.
  unfold _emit_text_with_source.
  replace (Ustr.eqb (u"socket") (u"uia") || Ustr.eqb (u"socket") (u"win_event"))
    with false by reflexivity.
  rewrite andb_false_r.
  unfold _emit_text.
  assert (Py.strip (Py.strip text) = Py.strip text) as -> by apply strip_idem.
  by destruct (Ustr.eqb (Py.strip text) []).
Qed.

Lemma parse_hook_line_raw line :
  (Ustr.startswith (Py.strip line) (u"{") && Ustr.endswith (Py.strip line) (u"}") = true
   → json_loads (Py.strip line) = None) →
  Ustr.startswith (Py.lower (Py.strip line)) (u"pid=")
    && Ustr.contains (Py.strip line) (u"|") = false →
  Ustr.startswith (Py.lower (Py.strip line)) (u"pid:")
    && Ustr.contains (Py.strip line) (u"|") = false →
  _parse_hook_line json_loads json_str json_pid int_of line
  = (None, Py.strip line, []).
Proof.
  intros Hjson Heq Hcolon. unfold _parse_hook_line.
  destruct (Ustr.eqb (Py.strip line) []) eqn:E.
  { apply eqb_true in E. by rewrite E. }
  assert (parse_json json_loads json_str json_pid (Py.strip line) = None) as ->.
  { unfold parse_json. destruct (_ && _); [|done]. by rewrite Hjson. }
  unfold parse_pid_form.
  change (u"pid" ++ [61]) with (u"pid=").
  change (u"pid" ++ [58]) with (u"pid:").
  by rewrite Heq, Hcolon.
Qed.
End WireFacts.

(** C7, as the code has it.  A received line that is no parseable JSON
    object and does not start, in any letter case, with [pid=] or [pid:]
    while containing a [|], is taken whole (stripped) as text: it is
    parsed to [(None, payload, "")] and handed to [_emit_text], which
    emits it when it is new and within [max_chars].  The bytes
    [not json at all] followed by a newline, received by a new thread,
    give the text event [not json at all]. *)
Theorem socket_line_protocol_tolerance
    (hash : list Z → Z) (jdict : Type) (json_loads : list Z → option jdict)
    (json_str : jdict → list Z → list Z) (json_pid : jdict → option Z)
    (int_of : list Z → option Z) (st : thread) (now pid : Z) (line : list Z) :
  let payload := Py.strip (Ustr.utf8_decode line) in
  (Ustr.startswith payload (u"{") && Ustr.endswith payload (u"}") = true
   → json_loads payload = None) →
  Ustr.startswith (Py.lower payload) (u"pid=") && Ustr.contains payload (u"|") = false →
  Ustr.startswith (Py.lower payload) (u"pid:") && Ustr.contains payload (u"|") = false →
  _parse_hook_line json_loads json_str json_pid int_of payload = (None, payload, [])
  ∧ handle_line hash json_loads json_str json_pid int_of st now line
    = _emit_text hash st now payload
  ∧ (payload ≠ [] → Py.len payload ≤ _max_chars st →
     payload ≠ _last_text st → hash payload ∉ _seen_set st →
     snd (handle_line hash json_loads json_str json_pid int_of st now line)
     = [text_received payload])
  ∧ snd (on_recv hash json_loads json_str json_pid int_of
           (default_thread pid) (λ _, now) []
           (Ustr.bytes_of "not json at all" ++ [10]))
    = [text_received (u"not json at all")].
Proof.
  intros payload Hjson Heq Hcolon.
  assert (Py.strip payload = payload) as Hidem by apply strip_idem.
  assert (_parse_hook_line json_loads json_str json_pid int_of payload
          = (None, payload, [])) as Hparse.
  { rewrite <- Hidem at 2. apply parse_hook_line_raw; by rewrite Hidem. }
  assert (handle_line hash json_loads json_str json_pid int_of st now line
          = _emit_text hash st now payload) as Hline.
  { unfold handle_line. fold payload.
    destruct (Ustr.eqb payload []) eqn:E.
    { apply eqb_true in E. rewrite E. reflexivity. }
    rewrite Hparse. cbn [app].
    rewrite emit_text_with_source_socket.
    by destruct (_emit_text hash st now payload). }
  refine (conj Hparse (conj Hline (conj _ _))).
  - intros Hne Hlen Hlast Hwin. rewrite Hline. unfold _emit_text.
    rewrite Hidem, (proj2 (eqb_false _ _) Hne), (proj2 (Z.ltb_ge _ _) Hlen).
    unfold _should_emit. rewrite (proj2 (eqb_false _ _) Hlast). cbn [andb].
    destruct (seen_add_fresh (with_last st payload now) (hash payload) Hwin)
      as (d & s & ->). reflexivity.
  - reflexivity.
Qed.

(** C7 on the malformed JSON line [{not json}]. *)
Lemma socket_line_protocol_tolerance_witness :
  _parse_hook_line json_raises json_no_str json_no_pid int_ascii (u"{not json}")
  = (None, u"{not json}", [])
  ∧ snd (handle_line hash_head json_raises json_no_str json_no_pid int_ascii
           (default_thread 4242) 1000 (Ustr.bytes_of "{not json}"))
    = [text_received (u"{not json}")].
Proof.
  pose proof (socket_line_protocol_tolerance hash_head unit json_raises
                json_no_str json_no_pid int_ascii (default_thread 4242) 1000
                4242 (Ustr.bytes_of "{not json}")) as H.
  cbv zeta in H.
  destruct H as (Hp & _ & He & _).
  - intros _. reflexivity.
  - vm_compute. reflexivity.
  - vm_compute. reflexivity.
  - split; [exact Hp|]. apply He.
    + vm_compute. discriminate.
    + vm_compute. discriminate.
    + vm_compute. discriminate.
    + vm_compute. set_solver.
Defined.

(** C7 as stated fails on a line that has the [pid=] prefix and a [|] but
    no number between them: it is neither JSON nor of the form
    [pid=<n>|<body>], and yet its text is what follows the [|], not the
    whole line. *)
Lemma pid_prefix_without_number_is_split :
  let line := Ustr.bytes_of "pid=abc|hello" in
  int_ascii (u"abc") = None
  ∧ _parse_hook_line json_raises json_no_str json_no_pid int_ascii
      (Ustr.utf8_decode line)
    = (None, u"hello", [])
  ∧ snd (handle_line hash_head json_raises json_no_str json_no_pid int_ascii
           (default_thread 4242) 1000 line)
    = [text_received (u"hello")].
Proof. cbv zeta. refine (conj _ (conj _ _)); vm_compute; reflexivity. Qed.

(** ** The architecture branch of [run] *)

Lemma find_none_all {A} (f : A → bool) l :
  (∀ x, x ∈ l → f x = false) → List.find f l = None.
Proof.
  induction l as [|a l IH]; intros H; [done|]. cbn.
  rewrite (H a) by by left. apply IH. intros x Hx. apply H. by right.
Qed.

Lemma mentions_app needle l1 l2 :
  mentions needle (l1 ++ l2) = mentions needle l1 || mentions needle l2.
Proof. apply existsb_app. Qed.

Lemma not_found_mentions : mentions (u"未找到") [status NOT_FOUND] = true.
Proof. vm_compute. reflexivity. Qed.

Lemma probe_block_no_helper hst st :
  probed_arch hst = x86 →
  h_current_py_arch hst = x64 →
  (∀ c, c ∈ agent_candidates hst → h_exists hst c = false) →
  is_agent hst = false →
  probe_block hst st
  = (with_channels st false false false,
     mismatch_statuses ++ [status NOT_FOUND], None, negb (_enable_socket st)).
Proof.
  intros Htarget Hpy Hnone Hagent.
  unfold probe_block. rewrite Htarget, Hpy, Hagent.
  unfold _find_32bit_agent. rewrite (find_none_all _ _ Hnone).
  cbv beta iota zeta delta [arch_eqb negb andb mismatch_statuses NOT_FOUND].
  reflexivity.
Qed.

(** C8, as the code has it.  For a valid PID, a target probed as 32-bit
    under a 64-bit interpreter, no helper at any candidate path, and a
    thread that is not itself running as the helper: [run] emits the
    status that contains the marker, starts no helper, disables the
    window-event, accessibility and instrumentation channels and never
    installs the window-event hooks; with the socket channel enabled on a
    port it starts the listener and idles, with the socket channel
    disabled it returns. *)
Theorem arch_mismatch_without_helper (hst : host) (st : thread) :
  0 < _pid st →
  probed_arch hst = x86 →
  h_current_py_arch hst = x64 →
  (∀ c, c ∈ agent_candidates hst → h_exists hst c = false) →
  is_agent hst = false →
  let r := run hst st in
  status NOT_FOUND ∈ r_emitted r
  ∧ mentions (u"未找到") (r_emitted r) = true
  ∧ r_agent r = None
  ∧ (_enable_win_event (r_thread r) = false
     ∧ _enable_uia (r_thread r) = false
     ∧ _enable_frida (r_thread r) = false
     ∧ r_uia_thread r = false
     ∧ r_frida_thread r = false
     ∧ r_phase r ≠ InstallHooks)
  ∧ (∀ port, _enable_socket st = true → _listen_port st = Some port → port ≠ 0 →
     r_server_thread r = true ∧ r_phase r = Idle)
  ∧ (_enable_socket st = false →
     r_server_thread r = false ∧ r_phase r = Returned).
Proof.
  intros Hpid Htarget Hpy Hnone Hagent r.
  subst r. unfold run.
  rewrite (proj2 (Z.leb_gt _ _) Hpid).
  rewrite (probe_block_no_helper hst st Htarget Hpy Hnone Hagent).
  assert (∀ l, status NOT_FOUND ∈ (mismatch_statuses ++ [status NOT_FOUND]) ++ l)
    as Hin.
  { intros l. apply elem_of_app. left. apply elem_of_app. right.
    by apply list_elem_of_singleton. }
  assert (∀ l, mentions (u"未找到")
                 ((mismatch_statuses ++ [status NOT_FOUND]) ++ l) = true) as Hm.
  { intros l. rewrite !mentions_app, not_found_mentions.
    by rewrite orb_true_r. }
  destruct (_enable_socket st) eqn:Hsock.
  - cbv beta iota zeta delta [negb].
    cbn [with_channels _enable_socket _listen_port _enable_uia _enable_frida
         _enable_win_event].
    rewrite Hsock.
    destruct (_listen_port st) as [p|] eqn:Hport;
      [destruct (Z.eqb_spec p 0) as [Hp0|Hp0]|];
      (destruct (h_import_error hst) as [e|]; [|destruct (h_os_nt hst)]);
      cbv beta iota zeta delta [negb andb];
      cbn [r_emitted r_agent r_thread r_uia_thread r_frida_thread r_phase
           r_server_thread with_channels _enable_win_event _enable_uia
           _enable_frida];
      (refine (conj (Hin _) (conj (Hm _) (conj eq_refl (conj _ (conj _ _)))));
       [repeat split; discriminate
       |intros port _ Hq Hne; first [congruence | split; reflexivity]
       |discriminate]).
  - cbv beta iota zeta delta [negb].
    cbn [r_emitted r_agent r_thread r_uia_thread r_frida_thread r_phase
         r_server_thread with_channels _enable_win_event _enable_uia
         _enable_frida].
    rewrite <- (app_nil_r (mismatch_statuses ++ [status NOT_FOUND])).
    refine (conj (Hin _) (conj (Hm _) (conj eq_refl (conj _ (conj _ _))))).
    + repeat split; discriminate.
    + discriminate.
    + intros _. split; reflexivity.
Qed.

(** C8 for the main application with its default port 37123. *)
Lemma arch_mismatch_without_helper_witness :
  status NOT_FOUND ∈ r_emitted (run main_host main_thread)
  ∧ r_server_thread (run main_host main_thread) = true
  ∧ r_phase (run main_host main_thread) = Idle.
Proof.
  pose proof (arch_mismatch_without_helper main_host main_thread) as H.
  cbv zeta in H.
  destruct H as (H1 & _ & _ & _ & H5 & _).
  - vm_compute. reflexivity.
  - reflexivity.
  - reflexivity.
  - intros c _. reflexivity.
  - vm_compute. reflexivity.
  - split; [exact H1|]. apply (H5 37123); [reflexivity|reflexivity|discriminate].
Defined.

(** C8 as stated fails for a session that runs as the helper: the
    recursion guard makes [run] return before it looks for a helper, no
    status contains the marker, and no socket listener runs. *)
Lemma helper_session_reports_no_missing_helper :
  probed_arch helper_host = x86
  ∧ h_current_py_arch helper_host = x64
  ∧ _find_32bit_agent helper_host = None
  ∧ mentions (u"未找到") (r_emitted (run helper_host helper_thread)) = false
  ∧ r_server_thread (run helper_host helper_thread) = false
  ∧ r_phase (run helper_host helper_thread) = Returned.
Proof. repeat split; vm_compute; reflexivity. Qed.

End ThreadFacts.

Section HelperFacts.
Import HookAgent.

(** ** The rate limit of the helper *)

Lemma send_text_window st now text :
  now - _msg_timer st ≤ 1000 →
  let r := _send_text st now text in
  _msg_timer (fst r) = _msg_timer st
  ∧ (snd r = None ∧ fst r = st
     ∨ _msg_count st < 20 ∧ _msg_count (fst r) = _msg_count st + 1
       ∧ snd r = Some (Py.strip text)).
Proof.
  intros Hw. unfold _send_text.
  destruct (Ustr.eqb (Py.strip text) []); [by split; [|left]|].
  rewrite (proj2 (Z.ltb_ge _ _) Hw).
  destruct (Z.leb_spec 20 (_msg_count st)); cbn.
  - split; [done|]. by left.
  - split; [done|]. right. done.
Qed.

Lemma send_all_window calls : ∀ st,
  0 ≤ _msg_count st →
  Forall (λ c, c.1 - _msg_timer st ≤ 1000) calls →
  Z.of_nat (length (snd (send_all st calls))) ≤ Z.max 0 (20 - _msg_count st).
Proof.
  induction calls as [|[now text] r IH]; intros st Hc Hw; cbn [send_all].
  { cbn. lia. }
  apply Forall_cons in Hw as [Hnow Hr]. cbn in Hnow.
  pose proof (send_text_window st now text Hnow) as Hstep. cbv zeta in Hstep.
  destruct (_send_text st now text) as [st1 sent]. cbn [fst snd] in Hstep.
  destruct Hstep as [Ht [[-> ->]|(Hlt & Hcount & ->)]].
  - specialize (IH st Hc Hr). destruct (send_all st r) as [st2 out]. cbn in *. lia.
  - assert (Forall (λ c, c.1 - _msg_timer st1 ≤ 1000) r) as Hr'.
    { by rewrite Ht. }
    specialize (IH st1 ltac:(lia) Hr').
    destruct (send_all st1 r) as [st2 out]. cbn [snd length] in *. lia.
Qed.

Lemma send_all_burst calls : ∀ st,
  0 ≤ _msg_count st →
  Forall (λ c, 1000 < c.1 - _msg_timer st) calls →
  (∀ c c', c ∈ calls → c' ∈ calls → c'.1 - c.1 ≤ 1000) →
  Z.of_nat (length (snd (send_all st calls))) ≤ 20.
Proof.
  induction calls as [|[now text] r IH]; intros st Hc Hold Hspan; cbn [send_all].
  { cbn. lia. }
  apply Forall_cons in Hold as [Hnow Hr]. cbn in Hnow.
  destruct (Ustr.eqb (Py.strip text) []) eqn:Hempty.
  - assert (_send_text st now text = (st, None)) as ->.
    { unfold _send_text. by rewrite Hempty. }
    specialize (IH st Hc Hr).
    destruct (send_all st r) as [st2 out]. cbn [snd] in *. apply IH.
    intros c c' Hin Hin'. apply Hspan; by right.
  - assert (_send_text st now text = (Limiter 1 now, Some (Py.strip text))) as ->.
    { unfold _send_text. rewrite Hempty, (proj2 (Z.ltb_lt _ _) Hnow). reflexivity. }
    pose proof (send_all_window r (Limiter 1 now)) as Hw. cbn in Hw.
    destruct (send_all (Limiter 1 now) r) as [st2 out]. cbn [snd length] in *.
    assert (Z.of_nat (length out) ≤ 19); [|lia].
    apply Hw; [lia|].
    apply Forall_forall. intros c Hin. apply (Hspan (now, text) c); [by left|by right].
Qed.

(** C9, as the code has it.  While no call arrives more than one second
    after the current window opened, at most [20 - _msg_count] further
    texts are handed to [_send_payload]; and of any calls that all arrive
    more than one second after the current window opened and within less
    than one second of each other (50 lines in under a second, the first
    of which opens a window), at most 20 are. *)
Theorem send_text_rate_limit (st : limiter) (calls : list (Z * list Z)) :
  0 ≤ _msg_count st →
  (Forall (λ c, fst c - _msg_timer st ≤ 1000) calls →
   Z.of_nat (length (snd (send_all st calls))) ≤ Z.max 0 (20 - _msg_count st))
  ∧ (Forall (λ c, 1000 < fst c - _msg_timer st) calls →
     (∀ c c', c ∈ calls → c' ∈ calls → fst c' - fst c < 1000) →
     Z.of_nat (length (snd (send_all st calls))) ≤ 20).
Proof.
  intros Hc. split.
  - by apply send_all_window.
  - intros Hold Hspan. apply send_all_burst; [done|done|].
    intros c c' Hin Hin'. specialize (Hspan c c' Hin Hin'). lia.
Qed.

(** C9 on 50 lines within 50 ms sent by a helper that just started. *)
Lemma send_text_rate_limit_witness :
  Z.of_nat (length (snd (send_all initial (burst 50 5000 (u"line"))))) ≤ 20.
Proof.
  apply (send_text_rate_limit initial (burst 50 5000 (u"line"))).
  - vm_compute. discriminate.
  - apply (bool_decide_unpack _). vm_compute. exact I.
  - intros c c' Hc Hc'.
    apply list_elem_of_fmap in Hc as (i & -> & Hi).
    apply list_elem_of_fmap in Hc' as (j & -> & Hj).
    apply elem_of_seqZ in Hi, Hj. cbn. lia.
Defined.

(** C9 as stated fails for a burst on both sides of a window boundary:
    after one text at 5000, of 50 lines sent between 5900 and 6100 the
    helper accepts 39. *)
Lemma burst_across_window_boundary :
  let st := fst (_send_text initial 5000 (u"x")) in
  st = Limiter 1 5000
  ∧ length straddling_burst = 50%nat
  ∧ (∀ c c', c ∈ straddling_burst → c' ∈ straddling_burst → fst c' - fst c < 1000)
  ∧ length (snd (send_all st straddling_burst)) = 39%nat.
Proof.
  cbv zeta. refine (conj _ (conj _ (conj _ _))).
  - vm_compute. reflexivity.
  - reflexivity.
  - intros c c' Hc Hc'. unfold straddling_burst in *.
    apply elem_of_app in Hc as [Hc|Hc]; apply elem_of_replicate in Hc as [-> _];
    apply elem_of_app in Hc' as [Hc'|Hc']; apply elem_of_replicate in Hc' as [-> _];
    cbn; lia.
  - vm_compute. reflexivity.
Qed.

End HelperFacts.

Section SessionFacts.
Import MainWindow.

(** ** Hook sessions of the main window *)

Lemma stale_status w sid s :
  sid ≠ _hook_session_id w → _on_hook_status w sid s = w.
Proof.
  intros H. unfold _on_hook_status. by rewrite (proj2 (Z.eqb_neq _ _) H).
Qed.

Lemma stale_text w sid now t :
  sid ≠ _hook_session_id w → _on_hook_text_received w sid now t = w.
Proof.
  intros H. unfold _on_hook_text_received. by rewrite (proj2 (Z.eqb_neq _ _) H).
Qed.

Lemma maybe_launch_session w s :
  _hook_session_id (_maybe_launch_other_arch w s) = _hook_session_id w.
Proof.
  unfold _maybe_launch_other_arch.
  destruct (_hook_arch_switch_prompted w); [done|].
  by destruct (_ || _).
Qed.

Lemma on_status_session w sid s :
  _hook_session_id (_on_hook_status w sid s) = _hook_session_id w.
Proof.
  unfold _on_hook_status.
  destruct (negb _); [done|]. destruct (Ustr.eqb s []); [done|].
  destruct (Ustr.contains s _ || Ustr.contains s _);
    destruct (existsb _ LEARNED_MARKS); try destruct (existsb _ UNLEARNED_MARKS);
    destruct (Ustr.startswith s _); cbn [do set_learned _hook_session_id];
    try apply maybe_launch_session; reflexivity.
Qed.

Lemma on_text_session w sid now t :
  _hook_session_id (_on_hook_text_received w sid now t) = _hook_session_id w.
Proof.
  unfold _on_hook_text_received.
  destruct (negb _); [done|].
  destruct (Py.strip t) as [|c0 rest]; [done|].
  destruct (_ && is_ascii_alpha c0); [done|].
  match goal with
  | |- context [let '(w1, payload) := ?e in _] =>
    assert (_hook_session_id (fst e) = _hook_session_id w
            ∧ realtime_checked (fst e) = realtime_checked w) as Hfst;
      [|destruct e as [w1 payload]]
  end.
  { destruct (_hook_pending_prefix w) as [|p [|? ?]]; try done.
    by destruct (is_ascii_alpha p). }
  cbn [fst] in Hfst. destruct Hfst as [Hid _].
  destruct (Ustr.eqb payload _); [done|].
  repeat match goal with
         | |- context [if ?b then _ else _] => destruct b
         end; cbn [do set_last_text _hook_session_id]; done.
Qed.

Lemma act_session_mono w a : _hook_session_id w ≤ _hook_session_id (act w a).
Proof.
  destruct a as [name pid| |sid s|sid now t]; cbn [act].
  - unfold _start_hook_service. destruct (pid <=? 0); cbn; lia.
  - cbn. lia.
  - rewrite on_status_session. lia.
  - rewrite on_text_session. lia.
Qed.

Lemma acts_session_mono l : ∀ w, _hook_session_id w ≤ _hook_session_id (acts w l).
Proof.
  induction l as [|a l IH]; intros w; [cbn; lia|].
  unfold acts in *. cbn [foldl].
  etrans; [apply (act_session_mono w a)|apply IH].
Qed.

Lemma acts_app w l1 l2 : acts w (l1 ++ l2) = acts (acts w l1) l2.
Proof. unfold acts. apply foldl_app. Qed.

(** C3.  A text or status callback whose tag differs from the current
    session id leaves the window as it is.  The id never decreases, and
    start and stop increment it: once a session started with tag [a] was
    stopped, whatever was started, stopped or delivered before and after
    the stop, callbacks tagged [a] are discarded. *)
Theorem stale_session_callbacks_discarded
    (w : window) (name : list Z) (pid : Z) (wA : window) (a : Z)
    (before after : list action) :
  _start_hook_service w name pid = (wA, Some a) →
  let w' := acts wA (before ++ Stop :: after) in
  a = _hook_session_id wA
  ∧ a < _hook_session_id w'
  ∧ (∀ s, _on_hook_status w' a s = w')
  ∧ (∀ now text, _on_hook_text_received w' a now text = w')
  ∧ (∀ v sid s, sid ≠ _hook_session_id v → _on_hook_status v sid s = v)
  ∧ (∀ v sid now text,
       sid ≠ _hook_session_id v → _on_hook_text_received v sid now text = v).
Proof.
  intros Hstart w'.
  assert (a = _hook_session_id wA) as Ha.
  { unfold _start_hook_service in Hstart.
    destruct (pid <=? 0); [done|]. by injection Hstart as <- <-. }
  assert (a < _hook_session_id w') as Hlt.
  { subst w'. rewrite acts_app. unfold acts at 1. cbn [foldl].
    pose proof (acts_session_mono before wA) as H1.
    pose proof (acts_session_mono after (act (acts wA before) Stop)) as H2.
    unfold acts in *. cbn [act _stop_hook_service _hook_session_id] in *. lia. }
  refine (conj Ha (conj Hlt (conj _ (conj _ (conj _ _))))).
  - intros s. apply stale_status. lia.
  - intros now text. apply stale_text. lia.
  - apply stale_status.
  - apply stale_text.
Qed.

(** C3 for session 1 after it was stopped and another was started. *)
Lemma stale_session_callbacks_discarded_witness :
  let wA := fst (_start_hook_service fresh_window (u"game.exe") 4242) in
  let w' := acts wA [Stop; Start (u"other.exe") 777] in
  _hook_session_id w' = 3
  ∧ _on_hook_text_received w' 1 5000 (u"late text of the first session") = w'
  ∧ _on_hook_status w' 1 (u"Hook钩子已就绪") = w'.
Proof.
  cbv zeta.
  pose proof (stale_session_callbacks_discarded fresh_window (u"game.exe") 4242
                (fst (_start_hook_service fresh_window (u"game.exe") 4242)) 1
                [] [Start (u"other.exe") 777]) as H.
  cbv zeta in H. destruct H as (_ & _ & Hs & Ht & _).
  - vm_compute. reflexivity.
  - refine (conj _ (conj (Ht _ _) (Hs _))). vm_compute. reflexivity.
Defined.

End SessionFacts.

Section StitcherFacts.
Import Agent.

(** ** The stitcher of the instrumentation agent *)

Lemma or_else_idem x : or_else x x = x.
Proof. by destruct x. Qed.

Lemma hello_1 start label t : start + 1000 ≤ t →
  sendText (loaded start) t (u"H") label = (s1 start label t, []).
Proof.
  intros H. unfold sendText.
  replace (t - _startTime (loaded start) <? 1000) with false
    by (symmetry; apply Z.ltb_ge; cbn; lia).
  vm_compute. reflexivity.
Qed.

Lemma hello_2 start label t0 t : start + 1000 ≤ t →
  sendText (s1 start label t0) t (u"He") label = (sg start label (u"He") t, []).
Proof.
  intros H. unfold sendText.
  replace (t - _startTime (s1 start label t0) <? 1000) with false
    by (symmetry; apply Z.ltb_ge; cbn; lia).
  vm_compute. reflexivity.
Qed.

Lemma hello_grow start label buf t0 t new :
  start + 1000 ≤ t →
  (buf, new) ∈ [(u"He", u"Hel"); (u"Hel", u"Hell"); (u"Hell", u"Hello")] →
  sendText (sg start label buf t0) t new label = (sg start label new t, []).
Proof.
  intros H Hin. unfold sendText.
  replace (t - _startTime (sg start label buf t0) <? 1000) with false
    by (symmetry; apply Z.ltb_ge; cbn; lia).
  repeat (apply elem_of_cons in Hin as [[= -> ->]|Hin]);
    [| | |by apply elem_of_nil in Hin];
    destruct label; vm_compute; reflexivity.
Qed.

Lemma hello_flush start label t0 t :
  t0 + 300 ≤ t →
  step (sg start label (u"Hello") t0) t GrowTimer
  = Some (AgentState (u"Hello") t 1 start [] None
                     (or_else label (u"Typewriter"))
                     (u"Hello") None label true [] None,
          [Message (u"Hello") (or_else label (u"unknown"))]).
Proof.
  intros H. unfold step, due. cbn [_growTimer sg].
  rewrite (proj2 (Z.leb_le _ _) H).
  destruct label; vm_compute; reflexivity.
Qed.

Lemma timers_wait_s1 start label t0 τ i :
  is_timer i = true → τ < t0 + 300 → step (s1 start label t0) τ i = None.
Proof.
  intros Hi Hτ. destruct i; try done; unfold step, due; cbn [_growTimer _uCharTimer _glTimer s1]; try done.
  by rewrite (proj2 (Z.leb_gt _ _) Hτ).
Qed.

Lemma timers_wait_sg start label buf t0 τ i :
  is_timer i = true → τ < t0 + 300 → step (sg start label buf t0) τ i = None.
Proof.
  intros Hi Hτ. destruct i; try done; unfold step, due; cbn [_growTimer _uCharTimer _glTimer sg]; try done.
  by rewrite (proj2 (Z.leb_gt _ _) Hτ).
Qed.

Lemma run_cons a clock now i r a1 out1 :
  clock ≤ now → step a now i = Some (a1, out1) →
  run a clock ((now, i) :: r)
  = match run a1 now r with
    | None => None
    | Some (a2, out2) => Some (a2, out1 ++ out2)
    end.
Proof.
  intros Hc Hs. cbn [run]. by rewrite (proj2 (Z.ltb_ge _ _) Hc), Hs.
Qed.

Lemma run_nil a clock : run a clock [] = Some (a, []).
Proof. reflexivity. Qed.

Ltac run_step E :=
  match goal with
  | |- context [run ?a ?c ((?n, ?i) :: ?r)] =>
    rewrite (run_cons a c n i r _ _ ltac:(lia) E)
  end.

(** C4, as the code has it.  The fragments H, He, Hel, Hell, Hello, the
    first at least 1000 ms after the script was loaded (the start-up
    delay) and each less than 300 ms after the one before: after
    each of them nothing was sent and no timer can run until 300 ms
    passed since it arrived; the grow timer running at any time from
    300 ms after the last one sends exactly the one message Hello, and
    leaves no timer pending. *)
Theorem growing_text_converges
    (start t1 t2 t3 t4 t5 tf : Z) (label : list Z) :
  start + 1000 ≤ t1 →
  t1 ≤ t2 < t1 + 300 →
  t2 ≤ t3 < t2 + 300 →
  t3 ≤ t4 < t3 + 300 →
  t4 ≤ t5 < t4 + 300 →
  t5 + 300 ≤ tf →
  let frags := hello_fragments t1 t2 t3 t4 t5 label in
  (∀ k tk f, frags !! k = Some (tk, f) →
     ∃ a, run (loaded start) t1 (take (S k) frags) = Some (a, [])
          ∧ ∀ τ i, is_timer i = true → τ < tk + 300 → step a τ i = None)
  ∧ ∃ a, run (loaded start) t1 (frags ++ [(tf, GrowTimer)])
         = Some (a, [Message (u"Hello") (or_else label (u"unknown"))])
         ∧ quiet a = true
         ∧ _growSent a = true.
Proof.
  intros H1 H2 H3 H4 H5 Hf frags.
  pose proof (hello_1 start label t1 ltac:(lia)) as E1.
  pose proof (hello_2 start label t1 t2 ltac:(lia)) as E2.
  pose proof (hello_grow start label (u"He") t2 t3 (u"Hel") ltac:(lia)
                ltac:(by left)) as E3.
  pose proof (hello_grow start label (u"Hel") t3 t4 (u"Hell") ltac:(lia)
                ltac:(by right; left)) as E4.
  pose proof (hello_grow start label (u"Hell") t4 t5 (u"Hello") ltac:(lia)
                ltac:(by right; right; left)) as E5.
  split.
  - intros k tk f Hk. subst frags. unfold hello_fragments in *.
    destruct k as [|[|[|[|[|k]]]]]; cbn in Hk; try discriminate;
      injection Hk as <- <-; cbn [take].
    + exists (s1 start label t1). split; [|intros; by apply timers_wait_s1].
      run_step (f_equal Some E1). done.
    + exists (sg start label (u"He") t2). split; [|intros; by apply timers_wait_sg].
      run_step (f_equal Some E1).
      run_step (f_equal Some E2). done.
    + exists (sg start label (u"Hel") t3). split; [|intros; by apply timers_wait_sg].
      run_step (f_equal Some E1).
      run_step (f_equal Some E2).
      run_step (f_equal Some E3). done.
    + exists (sg start label (u"Hell") t4). split; [|intros; by apply timers_wait_sg].
      run_step (f_equal Some E1).
      run_step (f_equal Some E2).
      run_step (f_equal Some E3).
      run_step (f_equal Some E4). done.
    + exists (sg start label (u"Hello") t5). split; [|intros; by apply timers_wait_sg].
      run_step (f_equal Some E1).
      run_step (f_equal Some E2).
      run_step (f_equal Some E3).
      run_step (f_equal Some E4).
      run_step (f_equal Some E5). done.
  - eexists. subst frags. unfold hello_fragments. cbn [app].
    run_step (f_equal Some E1).
    run_step (f_equal Some E2).
    run_step (f_equal Some E3).
    run_step (f_equal Some E4).
    run_step (f_equal Some E5).
    run_step (hello_flush start label t5 tf ltac:(lia)).
    rewrite run_nil. cbn [app]. split; [reflexivity|]. split; reflexivity.
Qed.

(** C4 with the fragments 100 ms apart. *)
Lemma growing_text_converges_witness :
  ∃ a, run (loaded 0) 5000
           (hello_fragments 5000 5100 5200 5300 5400 (u"TextOutW")
            ++ [(5700, GrowTimer)])
       = Some (a, [Message (u"Hello") (u"TextOutW")])
       ∧ quiet a = true
       ∧ _growSent a = true.
Proof.
  apply (growing_text_converges 0 5000 5100 5200 5300 5400 5700 (u"TextOutW"));
    lia.
Defined.

(** C4 as stated fails during the start-up delay: [sendText] returns at
    once while less than 1000 ms passed since the script was loaded.  With
    the script loaded at 0 and the five fragments at 100 to 500 ms, 100 ms
    apart, nothing is sent, the variables are as at load, and no timer is
    armed, so that no call-back can run at any later time: no event, not
    one. *)
Lemma fragments_during_startup_delay_are_dropped :
  run (loaded 0) 100 (hello_fragments 100 200 300 400 500 (u"TextOutW"))
  = Some (loaded 0, [])
  ∧ quiet (loaded 0) = true
  ∧ (∀ tf i, is_timer i = true → step (loaded 0) tf i = None)
  ∧ run (loaded 0) 100
        (hello_fragments 100 200 300 400 500 (u"TextOutW")
         ++ [(800, GrowTimer)])
    = None.
Proof.
  refine (conj _ (conj _ (conj _ _))).
  - vm_compute. reflexivity.
  - reflexivity.
  - intros tf i Hi. destruct i; try discriminate Hi; reflexivity.
  - vm_compute. reflexivity.
Qed.

(** *** Doubled characters *)

Lemma double_length s : length (double s) = (2 * length s)%nat.
Proof. induction s as [|c r IH]; [done|]. cbn [double length]. lia. Qed.

Lemma double_pairs_equal s : pairs_equal (double s) = true.
Proof. induction s as [|c r IH]; [done|]. cbn. by rewrite Z.eqb_refl. Qed.

Lemma double_evens s : evens (double s) = s.
Proof. induction s as [|c r IH]; [done|]. cbn. by rewrite IH. Qed.

Lemma double_collapse s : collapse (double s) = s.
Proof. induction s as [|c r IH]; [done|]. cbn. by rewrite Z.eqb_refl, IH. Qed.

Lemma dup_count_nonneg s : 0 ≤ dup_count s.
Proof.
  induction s as [|a [|b r] IH]; cbn [dup_count]; [lia|lia|].
  cbn [dup_count] in IH. destruct (a =? b); lia.
Qed.

Lemma double_dup_count s : Z.of_nat (length s) ≤ dup_count (double s).
Proof.
  induction s as [|c r IH]; [done|].
  cbn [double dup_count length]. rewrite Z.eqb_refl.
  destruct (double r) as [|d r'] eqn:E.
  - destruct r; [cbn; lia|done].
  - pose proof (dup_count_nonneg (d :: r')). destruct (c =? d); lia.
Qed.

Lemma clean_doubles_double s : cleanDoubles (double s) = s.
Proof.
  unfold cleanDoubles, len. rewrite double_length.
  destruct (_ <? 2) eqn:E1.
  { apply Z.ltb_lt in E1. destruct s; [done|cbn in E1; lia]. }
  pose proof (double_dup_count s).
  rewrite (proj2 (Z.leb_le _ _)) by lia. apply double_collapse.
Qed.

Lemma send_internal_double a now s label m :
  (2 ≤ length s)%nat →
  m ∈ snd (sendTextInternal a now (double s) label) → m_text m = s.
Proof.
  intros Hlen. unfold sendTextInternal.
  assert ((4 <=? len (double s)) && Z.even (len (double s))
          && pairs_equal (double s) = true) as ->.
  { unfold len. rewrite double_length, double_pairs_equal.
    rewrite (proj2 (Z.leb_le _ _)) by lia.
    rewrite Nat2Z.inj_mul, Z.even_mul. reflexivity. }
  rewrite double_evens.
  destruct (_ && _); cbn [snd]; [by intros ?%elem_of_nil|].
  destruct (_ && _); cbn [snd]; [by intros ?%elem_of_nil|].
  destruct (rejected s); cbn [snd]; [by intros ?%elem_of_nil|].
  intros ->%list_elem_of_singleton. reflexivity.
Qed.

Lemma doubled_test_flush start t tf label :
  start + 1000 ≤ t → t + 300 ≤ tf →
  snd <$> run (loaded start) t
            [(t, Fragment (u"TTeesstt") label); (tf, GrowTimer)]
  = Some [Message (u"Test") (or_else label (u"unknown"))].
Proof.
  intros H1 H2.
  assert (sendText (loaded start) t (u"TTeesstt") label
          = (AgentState [] 0 0 start [] None [] (u"TTeesstt") (Some (t + 300))
                        label false [] None, [])) as E1.
  { unfold sendText.
    replace (t - _startTime (loaded start) <? 1000) with false
      by (symmetry; apply Z.ltb_ge; cbn; lia).
    vm_compute. reflexivity. }
  run_step (f_equal Some E1).
  assert (step (AgentState [] 0 0 start [] None [] (u"TTeesstt") (Some (t + 300))
                           label false [] None) tf GrowTimer
          = Some (AgentState (u"Test") tf 1 start [] None [] (u"TTeesstt") None
                             label true [] None,
                  [Message (u"Test") (or_else label (u"unknown"))])) as E2.
  { unfold step, due. cbn [_growTimer].
    rewrite (proj2 (Z.leb_le _ _) H2).
    destruct label; vm_compute; reflexivity. }
  run_step E2. reflexivity.
Qed.

(** C5, as the code has it.  A fragment of at least four characters in
    which every character stands twice in a row is sent by
    [sendTextInternal] with one copy per pair, if it is sent at all;
    [cleanDoubles] of the glyph path detects it (at least 40 % of its
    positions repeat the next character) and collapses it as well; and
    the fragment TTeesstt, flushed by the grow timer, is sent as Test. *)
Theorem doubled_fragment_collapsed (a : agent) (now : Z) (s label : list Z) :
  (2 ≤ length s)%nat →
  (∀ m, m ∈ snd (sendTextInternal a now (double s) label) → m_text m = s)
  ∧ cleanDoubles (double s) = s
  ∧ 2 * len (double s) ≤ 5 * dup_count (double s)
  ∧ double (u"Test") = u"TTeesstt"
  ∧ ∀ start t tf,
      start + 1000 ≤ t → t + 300 ≤ tf →
      snd <$> run (loaded start) t
                [(t, Fragment (u"TTeesstt") label); (tf, GrowTimer)]
      = Some [Message (u"Test") (or_else label (u"unknown"))].
Proof.
  intros Hlen. refine (conj _ (conj _ (conj _ (conj _ _)))).
  - intros m. by apply send_internal_double.
  - apply clean_doubles_double.
  - pose proof (double_dup_count s). unfold len. rewrite double_length. lia.
  - vm_compute. reflexivity.
  - intros. by apply doubled_test_flush.
Qed.

(** C5 on TTeesstt. *)
Lemma doubled_fragment_collapsed_witness :
  cleanDoubles (double (u"Test")) = u"Test"
  ∧ snd <$> run (loaded 0) 5000
              [(5000, Fragment (u"TTeesstt") (u"TextOutW")); (5300, GrowTimer)]
    = Some [Message (u"Test") (u"TextOutW")].
Proof.
  pose proof (doubled_fragment_collapsed (loaded 0) 5000 (u"Test") (u"TextOutW"))
    as H.
  destruct H as (_ & Hc & _ & _ & Hr).
  - vm_compute. lia.
  - split; [exact Hc|]. apply (Hr 0 5000 5300); lia.
Defined.

(** C5 as stated fails for a doubled fragment of two characters: TT,
    whose only adjacent pair is identical, is sent unchanged by
    [sendTextInternal], whose collapse starts at four characters; only
    [cleanDoubles] would make it T. *)
Lemma two_letter_doubling_not_collapsed :
  double (u"T") = u"TT"
  ∧ 2 * len (u"TT") ≤ 5 * dup_count (u"TT")
  ∧ snd (sendTextInternal (loaded 0) 5000 (u"TT") (u"TextOutW"))
    = [Message (u"TT") (u"TextOutW")]
  ∧ snd <$> run (loaded 0) 5000
              [(5000, Fragment (u"TT") (u"TextOutW")); (5300, GrowTimer)]
    = Some [Message (u"TT") (u"TextOutW")]
  ∧ cleanDoubles (u"TT") = u"T".
Proof. repeat split; vm_compute; reflexivity || discriminate. Qed.

End StitcherFacts.
